(** * xerrors: classified errors over pkg/errors traces

    A shallow embedding of [xerrors.go].  An [*xError] is a mutable heap cell
    [{trace; code; message}]; every method assigns [xe.trace] in place, and
    the self-wrap guards compare pointers, so the model keeps an explicit
    heap of cells and represents a Go [error] interface value as a tree whose
    leaves may be pointers into that heap. *)

From Stdlib Require Import ZArith String Ascii DecimalString Lia.
From stdpp Require Import base list strings.

Open Scope string_scope.
Open Scope Z_scope.
Open Scope nat_scope.
Open Scope list_scope.

(** ** Go values *)

(** A pointer to an [xError]: the index of its cell in the heap. *)
Abbreviation addr := nat (only parsing).

(** One entry of a captured call stack (function name and location). *)
Definition frame := string.
Definition stack := list frame.

(** A value of Go's [error] interface, by dynamic type.
    - [Nil]: the nil interface;
    - [fundamental s]: any error that renders as [s] and has no [Cause]
      method (errors.New, fmt.Errorf, a sentinel, ...);
    - [withStack e st], [withMessage e msg]: the two wrapper structs of
      github.com/pkg/errors, immutable once built;
    - [xref p]: the pointer [p : *xError]. *)
Inductive error : Type :=
| Nil
| fundamental (s : string)
| withStack (e : error) (st : stack)
| withMessage (cause : error) (msg : string)
| xref (p : addr).

(** [type xError struct { trace error; code int; message string }] *)
Record xError : Type := mkxError {
  trace : error;
  code : Z;
  message : string
}.

Abbreviation heap := (list xError) (only parsing).

(** An argument of a variadic [...interface{}] parameter. *)
Inductive value : Type :=
| int_value (n : Z)
| string_value (s : string).

(** [err == nil] on an interface value. *)
Definition is_nil (e : error) : bool :=
  match e with Nil => true | _ => false end.

(** [_, ok := err.(XError)]: [*xError] is the only type of the package with
    the methods of [XError]. *)
Definition is_XError (e : error) : bool :=
  match e with xref _ => true | _ => false end.

(** A non-nil error that is not a classified error. *)
Definition plain (e : error) : Prop := is_nil e = false /\ is_XError e = false.

(** ** The external primitive github.com/pkg/errors

    Not part of the repository; modelled from its published behaviour:
    each constructor returns nil on a nil argument, [Wrap] is a message
    layer under a stack layer, and [callers()] records the frames of the
    function that called the primitive, which the model passes as [cs]. *)
Module errors.

Definition WithStack (cs : stack) (err : error) : error :=
  if is_nil err then Nil else withStack err cs.

Definition WithMessage (err : error) (message : string) : error :=
  if is_nil err then Nil else withMessage err message.

Definition Wrap (cs : stack) (err : error) (message : string) : error :=
  if is_nil err then Nil else withStack (withMessage err message) cs.

(** The [Format] method of a captured stack under [%+v]: every frame on
    a line of its own. *)
Definition stack_Format (st : stack) : string :=
  fold_right (fun f acc => String "010" f +:+ acc) "" st.

End errors.

(** ** Heap computations

    A computation transforms the heap and yields a value, or panics
    ([None]): a method called through a pointer that has no cell. *)
Definition M (A : Type) : Type := heap -> option (A * heap).

Definition ret {A} (a : A) : M A := fun h => Some (a, h).

Definition bind {A B} (m : M A) (k : A -> M B) : M B :=
  fun h => match m h with
           | Some (a, h') => k a h'
           | None => None
           end.

Notation "x <~ m ;; k" := (bind m (fun x => k))
  (at level 100, m at next level, right associativity).
Notation "m ;;; k" := (bind m (fun _ => k))
  (at level 100, right associativity).

(** [&xError{...}]: a fresh cell, at the first unused address. *)
Definition new (x : xError) : M addr := fun h => Some (length h, h ++ [x]).

(** Reading the cell behind [xe]. *)
Definition load (xe : addr) : M xError :=
  fun h => match h !! xe with
           | Some x => Some (x, h)
           | None => None
           end.

(** [xe.trace = t]. *)
Definition set_trace (xe : addr) (t : error) : M unit :=
  fun h => match h !! xe with
           | Some x => Some (tt, <[xe := mkxError t (code x) (message x)]> h)
           | None => None
           end.

(** ** Results of functions that may recurse through the heap *)
Inductive outcome (A : Type) : Type :=
| Done (a : A)
| Panic
| OutOfFuel.
Arguments Done {A} a.
Arguments Panic {A}.
Arguments OutOfFuel {A}.

Definition obind {A B} (o : outcome A) (k : A -> outcome B) : outcome B :=
  match o with
  | Done a => k a
  | Panic => Panic
  | OutOfFuel => OutOfFuel
  end.

(** [strconv.Itoa], as [%d] prints an [int]. *)
Definition itoa (n : Z) : string := NilZero.string_of_int (Z.to_int n).

(** [strings.Contains(s, sub)]. *)
Fixpoint contains (sub s : string) : bool :=
  String.prefix sub s ||
  match s with
  | EmptyString => false
  | String _ s' => contains sub s'
  end.

(** The frames the package's functions contribute to a captured stack. *)
Definition frame_Wrap : frame := "xerrors.Wrap".
Definition frame_Wrapf : frame := "xerrors.Wrapf".
Definition frame_WithStack : frame := "xerrors.WithStack".
Definition frame_xWrap : frame := "xerrors.xError.Wrap".
Definition frame_xWrapf : frame := "xerrors.xError.Wrapf".
Definition frame_xWithStack : frame := "xerrors.xError.WithStack".

(** ** The package *)
Section xerrors.

(** [fmt.Sprintf], of the Go standard library. *)
Variable Sprintf : string -> list value -> string.

(** [func Fail(code int, message string) XError] *)
Definition Fail (code : Z) (message : string) : M error :=
  p <~ new (mkxError Nil code message) ;;
  ret (xref p).

(** [func Failf(code int, format string, args ...interface{}) XError] *)
Definition Failf (code : Z) (format : string) (args : list value) : M error :=
  p <~ new (mkxError Nil code (Sprintf format args)) ;;
  ret (xref p).

(** [func (xe *xError) Code() int] *)
Definition Code (xe : addr) : M Z := x <~ load xe ;; ret (code x).

(** [func (xe *xError) Message() string] *)
Definition Message (xe : addr) : M string := x <~ load xe ;; ret (message x).

(** [func (xe *xError) GetError() error] *)
Definition GetError (xe : addr) : M error := x <~ load xe ;; ret (trace x).

(** [fmt.Sprintf(`<Error %d>: %s`, re.Code(), re.Message())]: the format
    is a constant and the arguments are an [int] and a [string]. *)
Definition rawMessage (code : Z) (message : string) : string :=
  "<Error " +:+ itoa code +:+ ">: " +:+ message.

(** [func (xe *xError) WithStack(err error) XError].  The assignment to
    [xe.trace] is the first statement, before the type switch and the
    identity test. *)
Definition xError_WithStack (cs : stack) (xe : addr) (err : error) : M error :=
  set_trace xe (errors.WithStack (frame_xWithStack :: cs) err) ;;;
  match err with
  | xref re =>
      if Nat.eqb re xe then ret (xref re)
      else
        c <~ Code re ;;
        m <~ Message re ;;
        (if Nat.eqb (String.length (rawMessage c m)) 0 then ret tt
         else t <~ GetError xe ;;
              set_trace xe (errors.WithMessage t (rawMessage c m))) ;;;
        ret (xref xe)
  | _ => ret (xref xe)
  end.

(** The branch on [err.(XError)] shared by [Wrap] and [Wrapf]:
    [newTrace] is [re.GetError()] on a self-wrap and otherwise the value
    RETURNED by [xe.WithStack(re.GetError())], an [XError]. *)
Definition newTrace (cs : stack) (xe re : addr) : M error :=
  if Nat.eqb re xe then GetError re
  else t <~ GetError re ;; xError_WithStack cs xe t.

(** [func (xe *xError) Wrap(err error, errString string) XError] *)
Definition xError_Wrap (cs : stack) (xe : addr) (err : error)
    (errString : string) : M error :=
  match err with
  | xref re =>
      nt <~ newTrace (frame_xWrap :: cs) xe re ;;
      set_trace xe (errors.WithMessage nt errString)
  | _ => set_trace xe (errors.Wrap (frame_xWrap :: cs) err errString)
  end ;;;
  ret (xref xe).

(** [func (xe *xError) Wrapf(err error, errString string, args ...)];
    [errors.Wrapf(err, f, args...)] is [errors.Wrap] of the formatted
    message. *)
Definition xError_Wrapf (cs : stack) (xe : addr) (err : error)
    (errString : string) (args : list value) : M error :=
  match err with
  | xref re =>
      nt <~ newTrace (frame_xWrapf :: cs) xe re ;;
      set_trace xe (errors.WithMessage nt (Sprintf errString args))
  | _ => set_trace xe
           (errors.Wrap (frame_xWrapf :: cs) err (Sprintf errString args))
  end ;;;
  ret (xref xe).

(** [func Wrap(err error, errString string) XError] *)
Definition Wrap (cs : stack) (err : error) (errString : string) : M error :=
  match err with
  | Nil => ret Nil
  | xref re => xError_Wrap (frame_Wrap :: cs) re err errString
  | _ =>
      p <~ new (mkxError (errors.Wrap (frame_Wrap :: cs) err errString) 0 "") ;;
      ret (xref p)
  end.

(** [func Wrapf(err error, errString string, args ...interface{}) XError] *)
Definition Wrapf (cs : stack) (err : error) (errString : string)
    (args : list value) : M error :=
  match err with
  | Nil => ret Nil
  | xref re => xError_Wrapf (frame_Wrapf :: cs) re err errString args
  | _ =>
      p <~ new (mkxError (errors.Wrap (frame_Wrapf :: cs) err
                            (Sprintf errString args)) 0 "") ;;
      ret (xref p)
  end.

(** [func WithStack(err error) XError] *)
Definition WithStack (cs : stack) (err : error) : M error :=
  match err with
  | Nil => ret Nil
  | xref re => xError_WithStack (frame_WithStack :: cs) re err
  | _ =>
      p <~ new (mkxError (errors.WithStack (frame_WithStack :: cs) err) 0 "") ;;
      ret (xref p)
  end.

End xerrors.

(** ** Rendering and cause lookup

    These follow the [error] values through the heap, and a cell's trace may
    lead back to the cell, so each takes fuel: one unit per method call.
    [OutOfFuel] is the call still running; [Panic] is a call on nil or
    through a pointer without a cell. *)

(** [err.Error()], by dynamic type; at [xref] it is
    [func (xe *xError) Error() string]: [""] when [xe.trace == nil], else
    [xe.trace.Error()].  A [withStack] renders as the error it embeds, a
    [withMessage] as [msg + ": " + cause.Error()]. *)
Fixpoint Error (fuel : nat) (h : heap) (err : error) : outcome string :=
  match fuel with
  | O => OutOfFuel
  | S n =>
      match err with
      | Nil => Panic
      | fundamental s => Done s
      | withStack e _ => Error n h e
      | withMessage c msg => obind (Error n h c) (fun s => Done (msg +:+ ": " +:+ s))
      | xref xe =>
          match h !! xe with
          | None => Panic
          | Some x => if is_nil (trace x) then Done "" else Error n h (trace x)
          end
      end
  end.

(** [func (xe *xError) Cause() error]: the trace's own [Cause()] when the
    trace has that method, else the trace. *)
Fixpoint xError_Cause (fuel : nat) (h : heap) (xe : addr) : outcome error :=
  match fuel with
  | O => OutOfFuel
  | S n =>
      match h !! xe with
      | None => Panic
      | Some x =>
          match trace x with
          | withStack e _ => Done e
          | withMessage c _ => Done c
          | xref q => xError_Cause n h q
          | t => Done t
          end
      end
  end.

(** [func Cause(err error) error]: the loop
    [for err != nil { cause, ok := err.(causer); if !ok { break }; err = cause.Cause() }],
    one iteration per unit of fuel. *)
Fixpoint Cause (fuel : nat) (h : heap) (err : error) : outcome error :=
  match fuel with
  | O => OutOfFuel
  | S n =>
      match err with
      | Nil => Done Nil
      | fundamental _ => Done err
      | withStack e _ => Cause n h e
      | withMessage c _ => Cause n h c
      | xref xe => obind (xError_Cause n h xe) (Cause n h)
      end
  end.

(** [fmt.Sprintf("%+v", err)].  At [xref] it is the ['v'] case of
    [func (xe *xError) Format] with the [+] flag:
    [fmt.Fprintf(s, "%+v\n", xe.trace)].  pkg/errors prints a [withStack]
    as its cause followed by the frames, and a [withMessage] as its cause,
    a newline and the message; fmt prints a nil interface as [<nil>] and a
    leaf error, which has no [Format] method, as its [Error()] text. *)
Fixpoint Format_plus_v (fuel : nat) (h : heap) (err : error) : outcome string :=
  match fuel with
  | O => OutOfFuel
  | S n =>
      match err with
      | Nil => Done "<nil>"
      | fundamental s => Done s
      | withStack e st =>
          obind (Format_plus_v n h e) (fun s => Done (s +:+ errors.stack_Format st))
      | withMessage c msg =>
          obind (Format_plus_v n h c) (fun s => Done (s +:+ String "010" msg))
      | xref xe =>
          match h !! xe with
          | None => Panic
          | Some x =>
              obind (Format_plus_v n h (trace x)) (fun s => Done (s +:+ String "010" ""))
          end
      end
  end.

(** The stack snapshots held in a trace value, outermost first. *)
Fixpoint snapshots (e : error) : list stack :=
  match e with
  | withStack e' st => st :: snapshots e'
  | withMessage c _ => snapshots c
  | _ => []
  end.

(** The message layers held in a trace value, outermost first. *)
Fixpoint annotations (e : error) : list string :=
  match e with
  | withStack e' _ => annotations e'
  | withMessage c msg => msg :: annotations c
  | _ => []
  end.

(** ** Sequences of wrap calls *)

(** One call of the wrapping surface, with the call stack of its call site:
    the three methods on a receiver, and the three package-level
    functions. *)
Inductive op : Type :=
| call_xWrap (cs : stack) (xe : addr) (err : error) (errString : string)
| call_xWrapf (cs : stack) (xe : addr) (err : error) (errString : string)
    (args : list value)
| call_xWithStack (cs : stack) (xe : addr) (err : error)
| call_Wrap (cs : stack) (err : error) (errString : string)
| call_Wrapf (cs : stack) (err : error) (errString : string) (args : list value)
| call_WithStack (cs : stack) (err : error).

Section calls.

Variable Sprintf : string -> list value -> string.

Definition call (o : op) : M error :=
  match o with
  | call_xWrap cs xe err s => xError_Wrap cs xe err s
  | call_xWrapf cs xe err s args => xError_Wrapf Sprintf cs xe err s args
  | call_xWithStack cs xe err => xError_WithStack cs xe err
  | call_Wrap cs err s => Wrap cs err s
  | call_Wrapf cs err s args => Wrapf Sprintf cs err s args
  | call_WithStack cs err => WithStack cs err
  end.

Fixpoint calls (os : list op) : M unit :=
  match os with
  | [] => ret tt
  | o :: os' => call o ;;; calls os'
  end.

End calls.

(** The pointers a call goes through must have a cell: the receiver, and a
    classified argument.  [n] is the number of cells allocated. *)
Definition allocated (n : nat) (e : error) : Prop :=
  match e with xref p => p < n | _ => True end.

Definition op_ok (n : nat) (o : op) : Prop :=
  match o with
  | call_xWrap _ xe err _ | call_xWrapf _ xe err _ _ | call_xWithStack _ xe err =>
      xe < n /\ allocated n err
  | call_Wrap _ err _ | call_Wrapf _ err _ _ | call_WithStack _ err =>
      allocated n err
  end.

(** An instance of [Sprintf] for the examples: the verbs [%d], [%s], [%v]
    and [%%] without flags or widths, on integer and string arguments, with
    fmt's markers for a missing, ill-typed or surplus argument.  Other verbs
    are not covered by it. *)
Definition bad_verb (v : ascii) (a : value) : string :=
  match a with
  | int_value n => "%!" +:+ String v ("(int=" +:+ itoa n +:+ ")")
  | string_value s => "%!" +:+ String v ("(string=" +:+ s +:+ ")")
  end.

Definition verb (v : ascii) (a : value) : string :=
  match a with
  | int_value n =>
      if (Ascii.eqb v "d" || Ascii.eqb v "v")%bool then itoa n else bad_verb v a
  | string_value s =>
      if (Ascii.eqb v "s" || Ascii.eqb v "v")%bool then s else bad_verb v a
  end.

Definition show_value (a : value) : string :=
  match a with
  | int_value n => "int=" +:+ itoa n
  | string_value s => "string=" +:+ s
  end.

Fixpoint show_values (args : list value) : string :=
  match args with
  | [] => ""
  | a :: rest =>
      match rest with
      | [] => show_value a
      | _ => show_value a +:+ ", " +:+ show_values rest
      end
  end.

(** The marker fmt appends for the arguments no verb has consumed. *)
Definition extra (args : list value) : string :=
  match args with
  | [] => ""
  | _ => "%!(EXTRA " +:+ show_values args +:+ ")"
  end.

Fixpoint Sprintf_dsv (format : string) (args : list value) : string :=
  match format with
  | EmptyString => extra args
  | String c rest =>
      if Ascii.eqb c "%" then
        match rest with
        | EmptyString => "%!(NOVERB)" +:+ extra args
        | String v rest' =>
            if Ascii.eqb v "%" then String "%" (Sprintf_dsv rest' args)
            else
              match args with
              | [] => "%!" +:+ String v "(MISSING)" +:+ Sprintf_dsv rest' []
              | a :: args' => verb v a +:+ Sprintf_dsv rest' args'
              end
        end
      else String c (Sprintf_dsv rest args)
  end.

(** ** Predicates of the statements *)

(** The layer on top of a trace has the cell [p] itself underneath.
    Rendering and cause lookup then re-enter the same cell forever. *)
Definition self_layer (p : addr) (t : error) : Prop :=
  (exists st, t = withStack (xref p) st) \/ (exists msg, t = withMessage (xref p) msg).

(** Every cell of [h] is still there in [h'], with its code and message. *)
Definition same_classification (h h' : heap) : Prop :=
  forall p x, h !! p = Some x ->
    exists x', h' !! p = Some x' /\ code x' = code x /\ message x' = message x.

(** A computation that, whenever it returns, has kept every
    classification. *)
Definition frames {A} (m : M A) : Prop :=
  forall h a h', m h = Some (a, h') -> same_classification h h'.

(** The traces the package stores come from the primitive, so no trace is
    itself a classified error; [n] cells at least are allocated. *)
Definition wf_heap (n : nat) (h : heap) : Prop :=
  n <= length h /\ forall p x, h !! p = Some x -> is_XError (trace x) = false.

(** Total correctness of a heap computation: from a heap satisfying [P]
    it returns, with a value and a heap satisfying [Q]. *)
Definition hoare {A} (P : heap -> Prop) (m : M A) (Q : A -> heap -> Prop) : Prop :=
  forall h, P h -> exists a h', m h = Some (a, h') /\ Q a h'.

(** A chain of pkg/errors layers over a leaf error: no nil and no
    classified error inside. *)
Fixpoint chain (e : error) : bool :=
  match e with
  | fundamental _ => true
  | withStack e' _ => chain e'
  | withMessage c _ => chain c
  | Nil | xref _ => false
  end.

(** The number of layers of a chain, its leaf included. *)
Fixpoint depth (e : error) : nat :=
  match e with
  | withStack e' _ => S (depth e')
  | withMessage c _ => S (depth c)
  | _ => 1
  end.


(** ** The other verbs of [Format], and helpers of the further statements *)

Section Format.

(** [strconv.Quote], which [%q] applies to a string. *)
Variable Quote : string -> string.

(** [func (xe *xError) Format(s fmt.State, verb rune)]: what the call
    writes to [s].  [plus] is [s.Flag('+')].  Case ['v'] with the flag is
    [Format_plus_v] at the receiver; without the flag it falls through to
    case ['s'], which writes [xe.Error()]; case ['q'] writes the quoted
    [xe.Error()]; the switch has no default, so any other verb writes
    nothing. *)
Definition xError_Format (fuel : nat) (h : heap) (xe : addr) (verb : ascii)
    (plus : bool) : outcome string :=
  if Ascii.eqb verb "v" then
    if plus then Format_plus_v fuel h (xref xe)
    else Error fuel h (xref xe)
  else if Ascii.eqb verb "s" then Error fuel h (xref xe)
  else if Ascii.eqb verb "q" then
    obind (Error fuel h (xref xe)) (fun s => Done (Quote s))
  else Done "".

End Format.

(** The leaf at the bottom of a chain of pkg/errors layers. *)
Fixpoint root (e : error) : error :=
  match e with
  | withStack e' _ => root e'
  | withMessage c _ => root c
  | _ => e
  end.

(** The text of a leaf error. *)
Definition leaf_text (e : error) : string :=
  match e with fundamental s => s | _ => "" end.

(** Message layers in front of a text, each followed by [": "]. *)
Definition join (msgs : list string) (s : string) : string :=
  fold_right (fun m acc => m +:+ ": " +:+ acc) s msgs.

(** Message layers put on a trace one after the other, the last on top. *)
Definition layered (t : error) (msgs : list string) : error :=
  fold_left (fun acc m => errors.WithMessage acc m) msgs t.

(** The package-level [Wrap] applied again and again to the same error,
    once per message, each call from the call stack [cs]. *)
Fixpoint Wraps (cs : stack) (err : error) (msgs : list string) : M error :=
  match msgs with
  | [] => ret err
  | m :: msgs' => r <~ Wrap cs err m ;; Wraps cs r msgs'
  end.

(** The receiver of a method call; [None] for a package-level function. *)
Definition receiver (o : op) : option addr :=
  match o with
  | call_xWrap _ xe _ _ | call_xWrapf _ xe _ _ _ | call_xWithStack _ xe _ => Some xe
  | _ => None
  end.

(** The error passed to a call. *)
Definition argument (o : op) : error :=
  match o with
  | call_xWrap _ _ err _ | call_xWrapf _ _ err _ _ | call_xWithStack _ _ err
  | call_Wrap _ err _ | call_Wrapf _ err _ _ | call_WithStack _ err => err
  end.

(** A computation that, whenever it returns, yields a value satisfying [Q],
    has allocated nothing and has left every cell but [xe] as it was. *)
Definition in_place {A} (xe : addr) (m : M A) (Q : A -> Prop) : Prop :=
  forall h a h', m h = Some (a, h') ->
    Q a /\ length h' = length h /\ forall p, p <> xe -> h' !! p = h !! p.

Example Sprintf_dsv_rawMessage :
  Sprintf_dsv "<Error %d>: %s" [int_value 404; string_value "not found"]
  = rawMessage 404 "not found".
Proof. reflexivity. Qed.

(** * Properties *)

(** ** Heap computations, step by step *)

Lemma bind_Some {A B} (m : M A) (k : A -> M B) h a h' :
  m h = Some (a, h') -> bind m k h = k a h'.
Proof. intros E. unfold bind. now rewrite E. Qed.

Lemma load_Some (h : heap) xe x : h !! xe = Some x -> load xe h = Some (x, h).
Proof. intros E. unfold load. now rewrite E. Qed.

Lemma set_trace_Some (h : heap) xe x t :
  h !! xe = Some x ->
  set_trace xe t h = Some (tt, <[xe := mkxError t (code x) (message x)]> h).
Proof. intros E. unfold set_trace. now rewrite E. Qed.

Lemma GetError_Some (h : heap) xe x :
  h !! xe = Some x -> GetError xe h = Some (trace x, h).
Proof. intros E. unfold GetError. now rewrite (bind_Some _ _ _ _ _ (load_Some _ _ _ E)). Qed.

Lemma Code_Some (h : heap) xe x :
  h !! xe = Some x -> Code xe h = Some (code x, h).
Proof. intros E. unfold Code. now rewrite (bind_Some _ _ _ _ _ (load_Some _ _ _ E)). Qed.

Lemma Message_Some (h : heap) xe x :
  h !! xe = Some x -> Message xe h = Some (message x, h).
Proof. intros E. unfold Message. now rewrite (bind_Some _ _ _ _ _ (load_Some _ _ _ E)). Qed.

Lemma lookup_new (h : heap) x : (h ++ [x]) !! length h = Some x.
Proof. apply list_lookup_middle. reflexivity. Qed.

Lemma insert_new (h : heap) x y : <[length h := y]> (h ++ [x]) = h ++ [y].
Proof.
  replace (length h) with (length h + 0) by lia.
  now rewrite insert_app_r.
Qed.

Lemma lookup_set (h : heap) xe x y : h !! xe = Some x -> <[xe := y]> h !! xe = Some y.
Proof. intros E. apply list_lookup_insert_eq. eapply lookup_lt_Some, E. Qed.

Lemma insert_set (h : heap) xe (y z : xError) : <[xe := z]> (<[xe := y]> h) = <[xe := z]> h.
Proof. apply list_insert_insert_eq. Qed.

(** ** One step of the fuelled functions *)

Lemma Error_xref fuel (h : heap) xe x :
  h !! xe = Some x ->
  Error (S fuel) h (xref xe) = if is_nil (trace x) then Done "" else Error fuel h (trace x).
Proof. intros E. cbn [Error]. now rewrite E. Qed.

Lemma Format_plus_v_xref fuel (h : heap) xe x :
  h !! xe = Some x ->
  Format_plus_v (S fuel) h (xref xe)
  = obind (Format_plus_v fuel h (trace x)) (fun s => Done (s +:+ String "010" "")).
Proof. intros E. cbn [Format_plus_v]. now rewrite E. Qed.

Lemma xError_Cause_step fuel (h : heap) xe x :
  h !! xe = Some x ->
  xError_Cause (S fuel) h xe
  = match trace x with
    | withStack e _ => Done e
    | withMessage c _ => Done c
    | xref q => xError_Cause fuel h q
    | t => Done t
    end.
Proof. intros E. cbn [xError_Cause]. now rewrite E. Qed.

(** ** Construction and the nil argument *)

(** C9.  [Fail(404, "not found")], before any wrap, is a fresh cell whose
    trace is nil: [Error()] returns the empty string (for any positive
    fuel), [Code()] returns 404 and [Message()] returns "not found". *)
Theorem Fail_fresh (h : heap) (fuel : nat) :
  let p := length h in
  let h1 := h ++ [mkxError Nil 404 "not found"] in
  Fail 404 "not found" h = Some (xref p, h1)
  /\ GetError p h1 = Some (Nil, h1)
  /\ Error (S fuel) h1 (xref p) = Done ""
  /\ Code p h1 = Some (404%Z, h1)
  /\ Message p h1 = Some ("not found", h1).
Proof.
  intros p h1.
  assert (E : h1 !! p = Some (mkxError Nil 404 "not found")) by apply lookup_new.
  repeat split.
  - apply (GetError_Some _ _ _ E).
  - now rewrite (Error_xref _ _ _ _ E).
  - apply (Code_Some _ _ _ E).
  - apply (Message_Some _ _ _ E).
Qed.

(** C5.  The package-level [Wrap(nil, m)] and [WithStack(nil)] return the
    nil interface and leave the heap as it was: no cell is allocated. *)
Theorem Wrap_WithStack_nil (cs : stack) (m : string) (h : heap) :
  Wrap cs Nil m h = Some (Nil, h) /\ WithStack cs Nil h = Some (Nil, h).
Proof. split; reflexivity. Qed.

(** C10.  On an allocated receiver [x], the methods [x.Wrap(nil, m)],
    [x.Wrapf(nil, m, args...)] and [x.WithStack(nil)] return [x] itself, not
    nil; the receiver's trace becomes what the primitive returns on nil
    (which is nil), and its code and message stay. *)
Theorem methods_on_nil (Sprintf : string -> list value -> string)
    (cs : stack) (h : heap) (x : addr) (c : xError) (m : string)
    (args : list value) :
  h !! x = Some c ->
  xError_Wrap cs x Nil m h
    = Some (xref x,
            <[x := mkxError (errors.Wrap (frame_xWrap :: cs) Nil m)
                     (code c) (message c)]> h)
  /\ xError_Wrapf Sprintf cs x Nil m args h
    = Some (xref x,
            <[x := mkxError (errors.Wrap (frame_xWrapf :: cs) Nil (Sprintf m args))
                     (code c) (message c)]> h)
  /\ xError_WithStack cs x Nil h
    = Some (xref x,
            <[x := mkxError (errors.WithStack (frame_xWithStack :: cs) Nil)
                     (code c) (message c)]> h)
  /\ is_nil (xref x) = false
  /\ errors.Wrap (frame_xWrap :: cs) Nil m = Nil
  /\ errors.Wrap (frame_xWrapf :: cs) Nil (Sprintf m args) = Nil
  /\ errors.WithStack (frame_xWithStack :: cs) Nil = Nil.
Proof.
  intros E. repeat split.
  - unfold xError_Wrap. now rewrite (bind_Some _ _ _ _ _ (set_trace_Some _ _ _ _ E)).
  - unfold xError_Wrapf. now rewrite (bind_Some _ _ _ _ _ (set_trace_Some _ _ _ _ E)).
  - unfold xError_WithStack. now rewrite (bind_Some _ _ _ _ _ (set_trace_Some _ _ _ _ E)).
Qed.

Lemma methods_on_nil_witness :
  [mkxError Nil 404 "not found"] !! 0 = Some (mkxError Nil 404 "not found")
  /\ xError_Wrap ["main"] 0 Nil "m" [mkxError Nil 404 "not found"]
     = Some (xref 0, [mkxError Nil 404 "not found"])
  /\ xError_WithStack ["main"] 0 Nil [mkxError Nil 404 "not found"]
     = Some (xref 0, [mkxError Nil 404 "not found"]).
Proof.
  split; [reflexivity|].
  pose proof (methods_on_nil Sprintf_dsv ["main"] [mkxError Nil 404 "not found"]
                0 (mkxError Nil 404 "not found") "m" [] eq_refl) as W.
  split; [exact (proj1 W) | exact (proj1 (proj2 (proj2 W)))].
Defined.

(** ** A cell whose trace wraps the cell itself *)

Lemma Error_self_layer (h : heap) p x :
  h !! p = Some x -> self_layer p (trace x) ->
  forall fuel, Error fuel h (xref p) = OutOfFuel /\ Error fuel h (trace x) = OutOfFuel.
Proof.
  intros E L fuel. induction fuel as [|n [IHp IHt]]; [now split|].
  split.
  - rewrite (Error_xref _ _ _ _ E).
    destruct L as [[st L]|[msg L]]; rewrite L in IHt |- *; exact IHt.
  - destruct L as [[st L]|[msg L]]; rewrite L; cbn [Error]; now rewrite IHp.
Qed.

Lemma Format_plus_v_self_layer (h : heap) p x :
  h !! p = Some x -> self_layer p (trace x) ->
  forall fuel,
    Format_plus_v fuel h (xref p) = OutOfFuel
    /\ Format_plus_v fuel h (trace x) = OutOfFuel.
Proof.
  intros E L fuel. induction fuel as [|n [IHp IHt]]; [now split|].
  split.
  - rewrite (Format_plus_v_xref _ _ _ _ E). now rewrite IHt.
  - destruct L as [[st L]|[msg L]]; rewrite L; cbn [Format_plus_v]; now rewrite IHp.
Qed.

Lemma Cause_self_layer (h : heap) p x :
  h !! p = Some x -> self_layer p (trace x) ->
  forall fuel, Cause fuel h (xref p) = OutOfFuel.
Proof.
  intros E L fuel. induction fuel as [|n IH]; [reflexivity|].
  cbn [Cause]. destruct n as [|n]; [reflexivity|].
  rewrite (xError_Cause_step _ _ _ _ E).
  destruct L as [[st L]|[msg L]]; rewrite L; exact IH.
Qed.

(** ** Self-wrap *)

(** What [xe.WithStack(xe)] does to an allocated receiver: the first
    statement stores a new snapshot over the receiver itself, and the
    identity test that follows returns without undoing it. *)
Lemma xError_WithStack_self (cs : stack) (h : heap) (xe : addr) (x : xError) :
  h !! xe = Some x ->
  xError_WithStack cs xe (xref xe) h
  = Some (xref xe,
          <[xe := mkxError (withStack (xref xe) (frame_xWithStack :: cs))
                    (code x) (message x)]> h).
Proof.
  intros E. unfold xError_WithStack.
  rewrite (bind_Some _ _ _ _ _ (set_trace_Some _ _ _ _ E)).
  now rewrite Nat.eqb_refl.
Qed.

(** What [xe.Wrap(xe, m)] does to an allocated receiver: a message layer
    over the current trace, through the primitive (nil stays nil). *)
Lemma xError_Wrap_self (cs : stack) (h : heap) (xe : addr) (x : xError) (m : string) :
  h !! xe = Some x ->
  xError_Wrap cs xe (xref xe) m h
  = Some (xref xe,
          <[xe := mkxError (errors.WithMessage (trace x) m) (code x) (message x)]> h).
Proof.
  intros E. unfold xError_Wrap, newTrace. rewrite Nat.eqb_refl.
  unfold bind. rewrite (GetError_Some _ _ _ E). cbv beta iota.
  now rewrite (set_trace_Some _ _ _ _ E).
Qed.

(** C3 (what the code does at the failing input).  For [re] fresh from
    [Fail(c, m)], [re.WithStack(re)] returns [re], but its trace, nil
    before the call, is afterwards a stack snapshot wrapped around [re]
    itself, and [re.Error()] no longer returns. *)
Theorem WithStack_self_overwrites_trace (h : heap) (c : Z) (m : string)
    (cs : stack) (fuel : nat) :
  let re := length h in
  let t := withStack (xref re) (frame_xWithStack :: cs) in
  let h1 := h ++ [mkxError Nil c m] in
  let h2 := h ++ [mkxError t c m] in
  Fail c m h = Some (xref re, h1)
  /\ GetError re h1 = Some (Nil, h1)
  /\ xError_WithStack cs re (xref re) h1 = Some (xref re, h2)
  /\ GetError re h2 = Some (t, h2)
  /\ snapshots t = [frame_xWithStack :: cs]
  /\ Error fuel h2 (xref re) = OutOfFuel.
Proof.
  intros re t h1 h2.
  assert (E1 : h1 !! re = Some (mkxError Nil c m)) by apply lookup_new.
  assert (E2 : h2 !! re = Some (mkxError t c m)) by apply lookup_new.
  repeat split.
  - apply (GetError_Some _ _ _ E1).
  - rewrite (xError_WithStack_self _ _ _ _ E1). unfold h1, h2, re.
    now rewrite insert_new.
  - apply (GetError_Some _ _ _ E2).
  - apply (Error_self_layer _ _ _ E2). left. now exists (frame_xWithStack :: cs).
Qed.

(** C2, refuted as stated.  [x] is [Fail(404, "not found")] after
    [x.Wrap(EOF, "read")]; the second [x.Wrap(x, "m")] leaves a trace that
    differs from the one the first left: one more layer ["m"]. *)
Lemma Wrap_self_second_call_differs :
  let t0 := withStack (withMessage (fundamental "EOF") "read") [frame_xWrap; "main"] in
  let t1 := withMessage t0 "m" in
  let t2 := withMessage t1 "m" in
  (x <~ Fail 404 "not found" ;; xError_Wrap ["main"] 0 (fundamental "EOF") "read") []
    = Some (xref 0, [mkxError t0 404 "not found"])
  /\ xError_Wrap ["main"] 0 (xref 0) "m" [mkxError t0 404 "not found"]
     = Some (xref 0, [mkxError t1 404 "not found"])
  /\ xError_Wrap ["main"] 0 (xref 0) "m" [mkxError t1 404 "not found"]
     = Some (xref 0, [mkxError t2 404 "not found"])
  /\ t2 <> t1
  /\ annotations t1 = ["m"; "read"]
  /\ annotations t2 = ["m"; "m"; "read"]
  /\ Error 5 [mkxError t1 404 "not found"] (xref 0) = Done "m: read: EOF"
  /\ Error 6 [mkxError t2 404 "not found"] (xref 0) = Done "m: m: read: EOF".
Proof. repeat split; try reflexivity. discriminate. Qed.

(** C2, as the code has it.  On an allocated [x] with trace [t], each
    [x.Wrap(x, m)] returns [x] and captures no stack: it replaces the trace
    by the primitive's message layer over it.  So after two calls the stack
    snapshots are those of [t]; a nil trace stays nil, and a non-nil trace
    has gained the layer [m] twice. *)
Theorem Wrap_self_twice (cs1 cs2 : stack) (h : heap) (x : addr) (c : xError)
    (m : string) :
  h !! x = Some c ->
  let t1 := errors.WithMessage (trace c) m in
  let t2 := errors.WithMessage t1 m in
  let h1 := <[x := mkxError t1 (code c) (message c)]> h in
  let h2 := <[x := mkxError t2 (code c) (message c)]> h in
  xError_Wrap cs1 x (xref x) m h = Some (xref x, h1)
  /\ xError_Wrap cs2 x (xref x) m h1 = Some (xref x, h2)
  /\ GetError x h1 = Some (t1, h1)
  /\ GetError x h2 = Some (t2, h2)
  /\ snapshots t1 = snapshots (trace c)
  /\ snapshots t2 = snapshots (trace c)
  /\ (is_nil (trace c) = true -> t1 = Nil /\ t2 = Nil)
  /\ (is_nil (trace c) = false ->
      t1 = withMessage (trace c) m /\ t2 = withMessage (withMessage (trace c) m) m).
Proof.
  intros E t1 t2 h1 h2.
  assert (E1 : h1 !! x = Some (mkxError t1 (code c) (message c)))
    by apply (lookup_set _ _ _ _ E).
  assert (E2 : h2 !! x = Some (mkxError t2 (code c) (message c)))
    by apply (lookup_set _ _ _ _ E).
  repeat apply conj.
  - apply (xError_Wrap_self _ _ _ _ _ E).
  - rewrite (xError_Wrap_self _ _ _ _ _ E1). unfold h1, h2. now rewrite insert_set.
  - apply (GetError_Some _ _ _ E1).
  - apply (GetError_Some _ _ _ E2).
  - unfold t1, errors.WithMessage. now destruct (trace c).
  - unfold t2, t1, errors.WithMessage. now destruct (trace c).
  - unfold t2, t1, errors.WithMessage. now intros ->.
  - unfold t2, t1, errors.WithMessage. now intros ->.
Qed.

Lemma Wrap_self_twice_witness :
  let t0 := withStack (withMessage (fundamental "EOF") "read") [frame_xWrap; "main"] in
  [mkxError t0 404 "not found"] !! 0 = Some (mkxError t0 404 "not found")
  /\ xError_Wrap ["main"] 0 (xref 0) "m"
       [mkxError (withMessage t0 "m") 404 "not found"]
     = Some (xref 0, [mkxError (withMessage (withMessage t0 "m") "m") 404 "not found"])
  /\ snapshots (withMessage (withMessage t0 "m") "m") = snapshots t0.
Proof.
  intros t0. split; [reflexivity|].
  pose proof (Wrap_self_twice ["main"] ["main"] [mkxError t0 404 "not found"] 0
                (mkxError t0 404 "not found") "m" eq_refl) as W.
  split; [exact (proj1 (proj2 W)) | exact (proj1 (proj2 (proj2 (proj2 (proj2 (proj2 W))))))].
Defined.

(** The package-level [WithStack] on a classified error is the method on
    that error with itself as argument. *)
Lemma WithStack_classified (cs : stack) (h : heap) (p : addr) (x : xError) :
  h !! p = Some x ->
  WithStack cs (xref p) h
  = Some (xref p,
          <[p := mkxError (withStack (xref p) (frame_xWithStack :: frame_WithStack :: cs))
                   (code x) (message x)]> h).
Proof. intros E. apply (xError_WithStack_self _ _ _ _ E). Qed.

(** C4 (what the code does at the failing input).  For a root error that
    renders as [s], the first [WithStack] allocates a cell over the root
    and [Cause] finds the root; the second and third go through the
    method's self-wrap path, which stores a snapshot wrapped around the
    cell itself.  On the resulting chain [Cause] has no result for any
    fuel: each iteration of its loop gets the same cell back. *)
Theorem Cause_WithStack_chain_diverges (h : heap) (s : string)
    (cs1 cs2 cs3 : stack) (fuel : nat) :
  let p := length h in
  let h1 := h ++ [mkxError (withStack (fundamental s) (frame_WithStack :: cs1)) 0 ""] in
  let h2 := h ++ [mkxError (withStack (xref p) (frame_xWithStack :: frame_WithStack :: cs2)) 0 ""] in
  let h3 := h ++ [mkxError (withStack (xref p) (frame_xWithStack :: frame_WithStack :: cs3)) 0 ""] in
  WithStack cs1 (fundamental s) h = Some (xref p, h1)
  /\ Cause (3 + fuel) h1 (xref p) = Done (fundamental s)
  /\ WithStack cs2 (xref p) h1 = Some (xref p, h2)
  /\ WithStack cs3 (xref p) h2 = Some (xref p, h3)
  /\ Cause fuel h3 (xref p) = OutOfFuel
  /\ xError_Cause (S fuel) h3 p = Done (xref p)
  /\ Error fuel h3 (xref p) = OutOfFuel
  /\ Error (S fuel) h3 (fundamental s) = Done s.
Proof.
  intros p h1 h2 h3.
  pose proof (lookup_new h (mkxError (withStack (fundamental s) (frame_WithStack :: cs1)) 0 "")) as E1.
  pose proof (lookup_new h (mkxError (withStack (xref p) (frame_xWithStack :: frame_WithStack :: cs2)) 0 "")) as E2.
  pose proof (lookup_new h (mkxError (withStack (xref p) (frame_xWithStack :: frame_WithStack :: cs3)) 0 "")) as E3.
  fold p h1 in E1. fold p h2 in E2. fold p h3 in E3.
  assert (L : self_layer p (withStack (xref p) (frame_xWithStack :: frame_WithStack :: cs3)))
    by (left; eauto).
  repeat apply conj.
  - reflexivity.
  - change (3 + fuel) with (S (S (S fuel))). cbn [Cause].
    rewrite (xError_Cause_step _ _ _ _ E1). reflexivity.
  - rewrite (WithStack_classified _ _ _ _ E1). unfold h1, h2, p. now rewrite insert_new.
  - rewrite (WithStack_classified _ _ _ _ E2). unfold h2, h3, p. now rewrite insert_new.
  - apply (Cause_self_layer _ _ _ E3 L).
  - now rewrite (xError_Cause_step _ _ _ _ E3).
  - apply (Error_self_layer _ _ _ E3 L).
  - reflexivity.
Qed.

(** ** Wrapping another classified error *)

(** [xe.Wrap(re, m)] with [re] another cell: [newTrace] is the XError that
    [xe.WithStack(re.GetError())] returns, which is [xe]; the trace that
    call stored in [xe] is then overwritten by a message layer over [xe]. *)
Lemma xError_Wrap_other (cs : stack) (h : heap) (xe re : addr) (x r : xError)
    (m : string) :
  h !! xe = Some x -> h !! re = Some r -> re <> xe -> is_XError (trace r) = false ->
  xError_Wrap cs xe (xref re) m h
  = Some (xref xe, <[xe := mkxError (withMessage (xref xe) m) (code x) (message x)]> h).
Proof.
  intros Ex Er Hne Ht. apply Nat.eqb_neq in Hne.
  unfold xError_Wrap, newTrace. rewrite Hne.
  unfold bind at 1 2 3. rewrite (GetError_Some _ _ _ Er). cbv beta iota.
  assert (W : xError_WithStack (frame_xWrap :: cs) xe (trace r) h
              = Some (xref xe,
                      <[xe := mkxError (errors.WithStack (frame_xWithStack :: frame_xWrap :: cs) (trace r))
                                (code x) (message x)]> h)).
  { unfold xError_WithStack. rewrite (bind_Some _ _ _ _ _ (set_trace_Some _ _ _ _ Ex)).
    destruct (trace r); try reflexivity. discriminate. }
  rewrite W.
  rewrite (set_trace_Some _ _ _ _ (lookup_set _ _ _ _ Ex)). cbn [code message].
  now rewrite insert_set.
Qed.

(** The sibling path: [b.WithStack(a)], called with the classified error
    itself, does fold [a]'s code and message into [b]'s trace. *)
Example xError_WithStack_other_folds :
  let h := [mkxError Nil 404 "not found"; mkxError Nil 500 "internal"] in
  let t := withMessage (withStack (xref 0) [frame_xWithStack; "main"])
             "<Error 404>: not found" in
  let h' := [mkxError Nil 404 "not found"; mkxError t 500 "internal"] in
  xError_WithStack ["main"] 1 (xref 0) h = Some (xref 1, h')
  /\ (exists text, Format_plus_v 5 h' (xref 1) = Done text
                   /\ contains "<Error 404>: not found" text = true).
Proof.
  split; [reflexivity|].
  eexists. split; [vm_compute; reflexivity | vm_compute; reflexivity].
Qed.

(** C1 (what the code does at the failing input).  [a] is
    [Fail(404, "not found")] and [b] a fresh [Fail(c, m)].  After
    [b.Wrap(a, "context")], [b] keeps its code and message, but its trace
    is the single layer ["context"] over [b] itself: nothing of [a] is in
    it, and the extended rendering of the trace and of [b] has no result
    for any fuel. *)
Theorem Wrap_classified_drops_inner (h : heap) (c : Z) (m : string)
    (cs : stack) (fuel : nat) :
  let a := length h in
  let h1 := h ++ [mkxError Nil 404 "not found"] in
  let b := length h1 in
  let h2 := h1 ++ [mkxError Nil c m] in
  let t := withMessage (xref b) "context" in
  let h3 := h1 ++ [mkxError t c m] in
  Fail 404 "not found" h = Some (xref a, h1)
  /\ Fail c m h1 = Some (xref b, h2)
  /\ xError_Wrap cs b (xref a) "context" h2 = Some (xref b, h3)
  /\ GetError b h3 = Some (t, h3)
  /\ annotations t = ["context"]
  /\ snapshots t = []
  /\ Format_plus_v fuel h3 t = OutOfFuel
  /\ Format_plus_v fuel h3 (xref b) = OutOfFuel
  /\ Error fuel h3 (xref b) = OutOfFuel
  /\ Code b h3 = Some (c, h3)
  /\ Message b h3 = Some (m, h3).
Proof.
  intros a h1 b h2 t h3.
  assert (Ea : h2 !! a = Some (mkxError Nil 404 "not found")).
  { unfold h2. apply lookup_app_l_Some, lookup_new. }
  assert (Eb : h2 !! b = Some (mkxError Nil c m)) by apply lookup_new.
  assert (E3 : h3 !! b = Some (mkxError t c m)) by apply lookup_new.
  assert (Hne : a <> b).
  { unfold a, b, h1. rewrite length_app. simpl. lia. }
  assert (L : self_layer b (trace (mkxError t c m))) by (right; eauto).
  repeat apply conj; try reflexivity.
  - rewrite (xError_Wrap_other _ _ _ _ _ _ _ Eb Ea Hne eq_refl).
    unfold h2, h3, b. now rewrite insert_new.
  - apply (GetError_Some _ _ _ E3).
  - apply (Format_plus_v_self_layer _ _ _ E3 L).
  - apply (Format_plus_v_self_layer _ _ _ E3 L).
  - apply (Error_self_layer _ _ _ E3 L).
  - apply (Code_Some _ _ _ E3).
  - apply (Message_Some _ _ _ E3).
Qed.

(** ** Code and message are never assigned *)


Lemma same_classification_refl h : same_classification h h.
Proof. intros p x E. now exists x. Qed.

Lemma same_classification_trans h1 h2 h3 :
  same_classification h1 h2 -> same_classification h2 h3 -> same_classification h1 h3.
Proof.
  intros H12 H23 p x E.
  destruct (H12 p x E) as (x2 & E2 & Hc2 & Hm2).
  destruct (H23 p x2 E2) as (x3 & E3 & Hc3 & Hm3).
  exists x3. repeat split; congruence.
Qed.


Lemma frames_ret {A} (a : A) : frames (ret a).
Proof. intros h a' h' [= _ <-]. apply same_classification_refl. Qed.

Lemma frames_bind {A B} (m : M A) (k : A -> M B) :
  frames m -> (forall a, frames (k a)) -> frames (bind m k).
Proof.
  intros Hm Hk h b h' E. unfold bind in E.
  destruct (m h) as [[a h1]|] eqn:E1; [|discriminate].
  eapply same_classification_trans; [eapply Hm, E1 | eapply Hk, E].
Qed.

Lemma frames_new x : frames (new x).
Proof.
  intros h a h' [= _ <-] p y E. exists y. split; [|easy].
  now apply lookup_app_l_Some.
Qed.

Lemma frames_load xe : frames (load xe).
Proof.
  intros h a h' E. unfold load in E.
  destruct (h !! xe); [|discriminate].
  injection E as _ <-. apply same_classification_refl.
Qed.

Lemma frames_set_trace xe t : frames (set_trace xe t).
Proof.
  intros h a h' E p y Ep. unfold set_trace in E.
  destruct (h !! xe) as [x|] eqn:Ex; [|discriminate].
  injection E as _ <-.
  destruct (decide (xe = p)) as [->|Hne].
  - rewrite (lookup_set _ _ _ _ Ex). eexists. split; [reflexivity|].
    assert (x = y) as -> by congruence. easy.
  - rewrite list_lookup_insert_ne by exact Hne. now exists y.
Qed.

Create HintDb frames.
#[local] Hint Resolve frames_ret frames_new frames_load frames_set_trace : frames.

Ltac frames_step :=
  match goal with
  | |- frames (bind _ _) => apply frames_bind; [|intros ?]
  | |- frames (if ?b then _ else _) => destruct b
  | |- frames (match ?e with _ => _ end) => destruct e
  | |- frames _ => solve [auto with frames]
  end.

Lemma frames_accessors xe : frames (Code xe) /\ frames (Message xe) /\ frames (GetError xe).
Proof. unfold Code, Message, GetError. repeat split; repeat frames_step. Qed.

Lemma frames_xError_WithStack cs xe err : frames (xError_WithStack cs xe err).
Proof.
  pose proof frames_accessors as F.
  unfold xError_WithStack. repeat frames_step; apply F.
Qed.

Lemma frames_newTrace cs xe re : frames (newTrace cs xe re).
Proof.
  unfold newTrace. repeat frames_step;
    solve [apply frames_accessors | apply frames_xError_WithStack].
Qed.

Lemma frames_xError_Wrap cs xe err s : frames (xError_Wrap cs xe err s).
Proof. unfold xError_Wrap. repeat frames_step; apply frames_newTrace. Qed.

Lemma frames_xError_Wrapf Sprintf cs xe err s args :
  frames (xError_Wrapf Sprintf cs xe err s args).
Proof. unfold xError_Wrapf. repeat frames_step; apply frames_newTrace. Qed.

Lemma frames_call Sprintf o : frames (call Sprintf o).
Proof.
  destruct o; cbn [call]; unfold Wrap, Wrapf, WithStack;
    try solve [apply frames_xError_Wrap | apply frames_xError_Wrapf
              | apply frames_xError_WithStack];
    repeat frames_step;
    solve [apply frames_xError_Wrap | apply frames_xError_Wrapf
          | apply frames_xError_WithStack].
Qed.

Lemma frames_calls Sprintf os : frames (calls Sprintf os).
Proof.
  induction os as [|o os IH]; cbn [calls].
  - apply frames_ret.
  - apply frames_bind; [apply frames_call | intros _; exact IH].
Qed.

(** C6.  Whatever the calls to [Wrap], [Wrapf] and [WithStack] (methods or
    package-level functions, any receivers and arguments), when the
    sequence returns every cell that existed before it -- in particular one
    built by [Fail] or [Failf] -- answers [Code()] and [Message()] with the
    values it had before. *)
Theorem classification_write_once (Sprintf : string -> list value -> string)
    (os : list op) (h h' : heap) (p : addr) (x : xError) :
  calls Sprintf os h = Some (tt, h') ->
  h !! p = Some x ->
  Code p h' = Some (code x, h') /\ Message p h' = Some (message x, h').
Proof.
  intros E Ep.
  destruct (frames_calls Sprintf os h tt h' E p x Ep) as (x' & E' & <- & <-).
  split; [apply (Code_Some _ _ _ E') | apply (Message_Some _ _ _ E')].
Qed.

Lemma classification_write_once_witness :
  let h := [mkxError Nil 404 "not found"; mkxError Nil 500 "internal"] in
  let os := [call_xWrap ["main"] 0 (fundamental "EOF") "read";
             call_Wrapf ["main"] (xref 0) "retry %d" [int_value 3];
             call_xWithStack ["main"] 1 (xref 0);
             call_WithStack ["main"] (fundamental "EOF")] in
  exists h',
    calls Sprintf_dsv os h = Some (tt, h')
    /\ h !! 0 = Some (mkxError Nil 404 "not found")
    /\ Code 0 h' = Some (404%Z, h')
    /\ Message 0 h' = Some ("not found", h').
Proof.
  intros h os.
  pose (h' := [mkxError
                 (withMessage
                    (withStack (withMessage (fundamental "EOF") "read")
                       [frame_xWrap; "main"]) "retry 3") 404 "not found";
               mkxError
                 (withMessage
                    (withStack (xref 0) [frame_xWithStack; "main"])
                    "<Error 404>: not found") 500 "internal";
               mkxError (withStack (fundamental "EOF") [frame_WithStack; "main"]) 0 ""]).
  exists h'.
  assert (E : calls Sprintf_dsv os h = Some (tt, h')) by reflexivity.
  split; [exact E|]. split; [reflexivity|].
  exact (classification_write_once Sprintf_dsv os h h' 0
           (mkxError Nil 404 "not found") E eq_refl).
Defined.

(** ** The wrap surface does not panic on allocated pointers *)


Lemma hoare_ret {A} (P : heap -> Prop) (a : A) (Q : A -> heap -> Prop) :
  (forall h, P h -> Q a h) -> hoare P (ret a) Q.
Proof. intros HQ h HP. exists a, h. split; [reflexivity | auto]. Qed.

Lemma hoare_bind {A B} P (m : M A) R (k : A -> M B) Q :
  hoare P m R -> (forall a, hoare (R a) (k a) Q) -> hoare P (bind m k) Q.
Proof.
  intros Hm Hk h HP. destruct (Hm h HP) as (a & h1 & E1 & HR).
  destruct (Hk a h1 HR) as (b & h2 & E2 & HQ).
  exists b, h2. split; [|exact HQ]. now rewrite (bind_Some _ _ _ _ _ E1).
Qed.

Lemma hoare_weaken {A} P (m : M A) (Q Q' : A -> heap -> Prop) :
  hoare P m Q -> (forall a h, Q a h -> Q' a h) -> hoare P m Q'.
Proof.
  intros Hm HQ h HP. destruct (Hm h HP) as (a & h' & E & Hq).
  exists a, h'. auto.
Qed.

Lemma hoare_pure {A} (P : heap -> Prop) (phi : Prop) (m : M A) Q :
  (phi -> hoare P m Q) -> hoare (fun h => P h /\ phi) m Q.
Proof. intros Hm h [HP Hphi]. exact (Hm Hphi h HP). Qed.

Lemma hoare_new n x :
  is_XError (trace x) = false -> hoare (wf_heap n) (new x) (fun _ => wf_heap n).
Proof.
  intros Hx h [Hn Hwf]. exists (length h), (h ++ [x]). split; [reflexivity|].
  split; [rewrite length_app; lia|].
  intros p y E. apply lookup_snoc_Some in E as [[_ E]|[_ <-]]; eauto.
Qed.

Lemma hoare_load n xe :
  xe < n ->
  hoare (wf_heap n) (load xe)
    (fun x h => wf_heap n h /\ is_XError (trace x) = false).
Proof.
  intros Hxe h [Hn Hwf].
  destruct (lookup_lt_is_Some_2 h xe ltac:(lia)) as [x E].
  exists x, h. split; [apply (load_Some _ _ _ E)|]. split; [now split | eauto].
Qed.

Lemma hoare_set_trace n xe t :
  xe < n -> is_XError t = false ->
  hoare (wf_heap n) (set_trace xe t) (fun _ => wf_heap n).
Proof.
  intros Hxe Ht h [Hn Hwf].
  destruct (lookup_lt_is_Some_2 h xe ltac:(lia)) as [x E].
  eexists tt, _. split; [apply (set_trace_Some _ _ _ _ E)|].
  split; [now rewrite length_insert|].
  intros p y Ep. apply list_lookup_insert_Some in Ep as [(-> & <- & _)|[_ Ep]]; eauto.
Qed.

Lemma primitive_not_XError cs err msg :
  is_XError (errors.WithStack cs err) = false
  /\ is_XError (errors.WithMessage err msg) = false
  /\ is_XError (errors.Wrap cs err msg) = false.
Proof. unfold errors.WithStack, errors.WithMessage, errors.Wrap. now destruct err. Qed.

Lemma allocated_not_XError n t : is_XError t = false -> allocated n t.
Proof. now destruct t. Qed.

Lemma hoare_Code n xe : xe < n -> hoare (wf_heap n) (Code xe) (fun _ => wf_heap n).
Proof.
  intros Hxe. unfold Code.
  eapply hoare_bind; [apply (hoare_load n xe Hxe)|].
  intros x. apply hoare_ret. now intros h [Hwf _].
Qed.

Lemma hoare_Message n xe : xe < n -> hoare (wf_heap n) (Message xe) (fun _ => wf_heap n).
Proof.
  intros Hxe. unfold Message.
  eapply hoare_bind; [apply (hoare_load n xe Hxe)|].
  intros x. apply hoare_ret. now intros h [Hwf _].
Qed.

Lemma hoare_GetError n xe :
  xe < n ->
  hoare (wf_heap n) (GetError xe) (fun t h => wf_heap n h /\ is_XError t = false).
Proof.
  intros Hxe. unfold GetError.
  eapply hoare_bind; [apply (hoare_load n xe Hxe)|].
  intros x. now apply hoare_ret.
Qed.

Lemma hoare_xError_WithStack n cs xe err :
  xe < n -> allocated n err ->
  hoare (wf_heap n) (xError_WithStack cs xe err) (fun _ => wf_heap n).
Proof.
  intros Hxe Herr. unfold xError_WithStack.
  eapply hoare_bind;
    [apply (hoare_set_trace n xe _ Hxe), primitive_not_XError with (msg := "")|].
  intros ?. destruct err as [| | | |re]; try (now apply hoare_ret).
  destruct (Nat.eqb re xe); [now apply hoare_ret|].
  eapply hoare_bind; [apply (hoare_Code n re Herr)|]. intros c.
  eapply hoare_bind; [apply (hoare_Message n re Herr)|]. intros m.
  eapply hoare_bind with (R := fun _ => wf_heap n); [|intros ?; now apply hoare_ret].
  destruct (Nat.eqb _ 0); [now apply hoare_ret|].
  eapply hoare_bind; [apply (hoare_GetError n xe Hxe)|]. intros t.
  apply hoare_pure. intros ?.
  apply (hoare_set_trace n xe _ Hxe), primitive_not_XError with (cs := []).
Qed.

Lemma hoare_newTrace n cs xe re :
  xe < n -> re < n ->
  hoare (wf_heap n) (newTrace cs xe re) (fun _ => wf_heap n).
Proof.
  intros Hxe Hre. unfold newTrace. destruct (Nat.eqb re xe).
  - eapply hoare_weaken; [apply (hoare_GetError n re Hre)|]. now intros t h [Hwf _].
  - eapply hoare_bind; [apply (hoare_GetError n re Hre)|]. intros t.
    apply hoare_pure. intros Ht.
    apply hoare_xError_WithStack; [exact Hxe | now apply allocated_not_XError].
Qed.

Lemma hoare_xError_Wrap n cs xe err s :
  xe < n -> allocated n err ->
  hoare (wf_heap n) (xError_Wrap cs xe err s) (fun _ => wf_heap n).
Proof.
  intros Hxe Herr. unfold xError_Wrap.
  eapply hoare_bind with (R := fun _ => wf_heap n); [|intros ?; now apply hoare_ret].
  destruct err as [| | | |re];
    try (apply (hoare_set_trace n xe _ Hxe), primitive_not_XError).
  eapply hoare_bind; [apply (hoare_newTrace n _ xe re Hxe Herr)|]. intros nt.
  apply (hoare_set_trace n xe _ Hxe), primitive_not_XError with (cs := []).
Qed.

Lemma hoare_xError_Wrapf Sprintf n cs xe err s args :
  xe < n -> allocated n err ->
  hoare (wf_heap n) (xError_Wrapf Sprintf cs xe err s args) (fun _ => wf_heap n).
Proof.
  intros Hxe Herr. unfold xError_Wrapf.
  eapply hoare_bind with (R := fun _ => wf_heap n); [|intros ?; now apply hoare_ret].
  destruct err as [| | | |re];
    try (apply (hoare_set_trace n xe _ Hxe), primitive_not_XError).
  eapply hoare_bind; [apply (hoare_newTrace n _ xe re Hxe Herr)|]. intros nt.
  apply (hoare_set_trace n xe _ Hxe), primitive_not_XError with (cs := []).
Qed.

Lemma hoare_call Sprintf n o :
  op_ok n o -> hoare (wf_heap n) (call Sprintf o) (fun _ => wf_heap n).
Proof.
  destruct o as [cs xe err s|cs xe err s args|cs xe err|cs err s|cs err s args|cs err];
    cbn [op_ok call].
  - intros [Hxe Herr]. now apply hoare_xError_Wrap.
  - intros [Hxe Herr]. now apply hoare_xError_Wrapf.
  - intros [Hxe Herr]. now apply hoare_xError_WithStack.
  - intros Herr. unfold Wrap. destruct err as [| | | |re];
      try (now apply hoare_ret);
      try (eapply hoare_bind; [apply hoare_new, primitive_not_XError
                              | intros p; now apply hoare_ret]).
    now apply hoare_xError_Wrap.
  - intros Herr. unfold Wrapf. destruct err as [| | | |re];
      try (now apply hoare_ret);
      try (eapply hoare_bind; [apply hoare_new, primitive_not_XError
                              | intros p; now apply hoare_ret]).
    now apply hoare_xError_Wrapf.
  - intros Herr. unfold WithStack. destruct err as [| | | |re];
      try (now apply hoare_ret);
      try (eapply hoare_bind;
           [apply hoare_new, primitive_not_XError with (msg := "")
           | intros p; now apply hoare_ret]).
    now apply hoare_xError_WithStack.
Qed.

(** A sequence of calls on allocated pointers of a well-formed heap runs to
    its end, and the heap stays well-formed. *)
Lemma calls_return Sprintf n os (h : heap) :
  Forall (op_ok n) os -> wf_heap n h ->
  exists h', calls Sprintf os h = Some (tt, h') /\ wf_heap n h'.
Proof.
  intros Hos. revert h. induction Hos as [|o os Ho _ IH]; intros h Hwf.
  - now exists h.
  - destruct (hoare_call Sprintf n o Ho h Hwf) as (r & h1 & E1 & Hwf1).
    destruct (IH h1 Hwf1) as (h' & E' & Hwf').
    exists h'. split; [|exact Hwf']. cbn [calls]. now rewrite (bind_Some _ _ _ _ _ E1).
Qed.

(** ** Wrapping a plain error *)

Lemma prefix_append (m r : string) : String.prefix m (m +:+ r) = true.
Proof.
  induction m as [|a m IH]; [now destruct r|].
  change (String a m +:+ r) with (String a (m +:+ r)). cbn [String.prefix].
  destruct (ascii_dec a a); [exact IH | congruence].
Qed.

Lemma contains_prefix (m r : string) : contains m (m +:+ r) = true.
Proof.
  assert (U : forall s, contains m s
                        = (String.prefix m s
                           || match s with
                              | EmptyString => false
                              | String _ s' => contains m s'
                              end)%bool) by (now intros []).
  rewrite U, prefix_append. reflexivity.
Qed.

(** A rendering that returns in [h] returns the same text in any heap that
    has the cells of [h]. *)
Lemma Error_extend (h h' : heap) :
  (forall p x, h !! p = Some x -> h' !! p = Some x) ->
  forall fuel e s, Error fuel h e = Done s -> Error fuel h' e = Done s.
Proof.
  intros Hext fuel. induction fuel as [|n IH]; intros e s E; [discriminate|].
  destruct e as [|s0|e0 st|c msg|p]; cbn [Error] in E |- *.
  - discriminate.
  - exact E.
  - now apply IH.
  - destruct (Error n h c) as [s1| |] eqn:Ec; try discriminate.
    now rewrite (IH _ _ Ec).
  - destruct (h !! p) as [x|] eqn:Ep; [|discriminate].
    rewrite (Hext _ _ Ep). destruct (is_nil (trace x)); [exact E | now apply IH].
Qed.

Lemma Error_new (h : heap) (x : xError) fuel e s :
  Error fuel h e = Done s -> Error fuel (h ++ [x]) e = Done s.
Proof. apply Error_extend. intros p y. apply lookup_app_l_Some. Qed.

(** A chain renders in any heap, with fuel for its layers. *)
Lemma Error_chain (h : heap) (e : error) :
  chain e = true ->
  plain e /\ exists s, forall fuel, depth e <= fuel -> Error fuel h e = Done s.
Proof.
  intros C. split; [now destruct e|].
  induction e as [|s0|e0 IH st|c IH msg|p]; try discriminate.
  - exists s0. intros [|n] Hn; [cbn in Hn; lia | reflexivity].
  - destruct (IH C) as [s Hs]. exists s.
    intros [|n] Hn; cbn in Hn; [lia|]. cbn [Error]. apply Hs. lia.
  - destruct (IH C) as [s Hs]. exists (msg +:+ ": " +:+ s).
    intros [|n] Hn; cbn in Hn; [lia|]. cbn [Error]. rewrite Hs by lia. reflexivity.
Qed.

(** The package-level [Wrap] on a plain error allocates a cell whose trace
    is the primitive's wrap of it. *)
Lemma Wrap_plain_cell (cs : stack) (h : heap) (e : error) (m : string) :
  plain e ->
  Wrap cs e m h
  = Some (xref (length h),
          h ++ [mkxError (withStack (withMessage e m) (frame_Wrap :: cs)) 0 ""]).
Proof. intros [Hn Hx]. destruct e; try discriminate; reflexivity. Qed.

(** A rendering that has no result stays without one under further
    layers, and in a cell whose trace it is. *)
Lemma Error_stuck_layers (h : heap) (e : error) :
  (forall fuel, Error fuel h e = OutOfFuel) ->
  forall st m fuel,
    Error fuel h (withStack e st) = OutOfFuel
    /\ Error fuel h (withMessage e m) = OutOfFuel.
Proof.
  intros H st m [|n]; [now split|]. cbn [Error]. now rewrite H.
Qed.

Lemma Error_stuck_cell (h : heap) (p : addr) (x : xError) :
  h !! p = Some x -> is_nil (trace x) = false ->
  (forall fuel, Error fuel h (trace x) = OutOfFuel) ->
  forall fuel, Error fuel h (xref p) = OutOfFuel.
Proof.
  intros E Hn H [|n]; [reflexivity|]. rewrite (Error_xref _ _ _ _ E), Hn. apply H.
Qed.

(** C7, refuted as stated.  [x] is [Fail(404, "not found")] after the
    package-level [WithStack(x)]; [e := x.GetError()] is non-nil and is not
    a classified error, yet [e.Error()] never returns, and neither does
    [Wrap(e, "m").Error()]: no rendering contains ["m"]. *)
Lemma Wrap_plain_without_rendering :
  let e := withStack (xref 0) [frame_xWithStack; frame_WithStack; "main"] in
  let h1 := [mkxError e 404 "not found"] in
  let h2 := h1 ++ [mkxError (withStack (withMessage e "m") [frame_Wrap; "main"]) 0 ""] in
  (x <~ Fail 404 "not found" ;; WithStack ["main"] x) [] = Some (xref 0, h1)
  /\ GetError 0 h1 = Some (e, h1)
  /\ plain e
  /\ Wrap ["main"] e "m" h1 = Some (xref 1, h2)
  /\ (forall fuel, Error fuel h2 (xref 1) = OutOfFuel)
  /\ ~ (exists fuel s, Error fuel h2 (xref 1) = Done s /\ contains "m" s = true).
Proof.
  intros e h1 h2.
  assert (E0 : h2 !! 0 = Some (mkxError e 404 "not found")) by reflexivity.
  assert (E1 : h2 !! 1 = Some (mkxError (withStack (withMessage e "m") [frame_Wrap; "main"]) 0 ""))
    by reflexivity.
  assert (L : self_layer 0 (trace (mkxError e 404 "not found"))) by (left; eauto).
  assert (He : forall fuel, Error fuel h2 e = OutOfFuel)
    by (intros fuel; apply (Error_self_layer _ _ _ E0 L)).
  assert (H1 : forall fuel, Error fuel h2 (xref 1) = OutOfFuel).
  { apply (Error_stuck_cell _ _ _ E1); [reflexivity|]. cbn [trace].
    pose proof (fun fuel => proj2 (Error_stuck_layers h2 e He [] "m" fuel)) as Hm.
    intros fuel. exact (proj1 (Error_stuck_layers h2 _ Hm _ "" fuel)). }
  repeat apply conj; try reflexivity.
  - exact H1.
  - intros (fuel & s & Es & _). rewrite H1 in Es. discriminate.
Qed.

(** C8, refuted as stated.  With the same [e], the trace of
    [Wrap(Wrap(e, "inner"), "outer")] holds both layers, but its [Error()]
    never returns: no rendering contains "inner" or "outer". *)
Lemma Wrap_Wrap_without_rendering :
  let e := withStack (xref 0) [frame_xWithStack; frame_WithStack; "main"] in
  let h1 := [mkxError e 404 "not found"] in
  let t1 := withStack (withMessage e "inner") [frame_Wrap; "main"] in
  let h2 := h1 ++ [mkxError t1 0 ""] in
  let h3 := h1 ++ [mkxError (withMessage t1 "outer") 0 ""] in
  (x <~ Fail 404 "not found" ;; WithStack ["main"] x) [] = Some (xref 0, h1)
  /\ GetError 0 h1 = Some (e, h1)
  /\ plain e
  /\ Wrap ["main"] e "inner" h1 = Some (xref 1, h2)
  /\ Wrap ["main"] (xref 1) "outer" h2 = Some (xref 1, h3)
  /\ (forall fuel, Error fuel h3 (xref 1) = OutOfFuel)
  /\ ~ (exists fuel s, Error fuel h3 (xref 1) = Done s
                       /\ contains "inner" s = true /\ contains "outer" s = true).
Proof.
  intros e h1 t1 h2 h3.
  assert (E0 : h3 !! 0 = Some (mkxError e 404 "not found")) by reflexivity.
  assert (E1 : h3 !! 1 = Some (mkxError (withMessage t1 "outer") 0 "")) by reflexivity.
  assert (L : self_layer 0 (trace (mkxError e 404 "not found"))) by (left; eauto).
  assert (He : forall fuel, Error fuel h3 e = OutOfFuel)
    by (intros fuel; apply (Error_self_layer _ _ _ E0 L)).
  assert (H1 : forall fuel, Error fuel h3 (xref 1) = OutOfFuel).
  { apply (Error_stuck_cell _ _ _ E1); [reflexivity|]. cbn [trace].
    pose proof (fun fuel => proj2 (Error_stuck_layers h3 e He [] "inner" fuel)) as Hm.
    pose proof (fun fuel => proj1 (Error_stuck_layers h3 _ Hm [frame_Wrap; "main"] "" fuel))
      as Hs.
    intros fuel. exact (proj2 (Error_stuck_layers h3 _ Hs [] "outer" fuel)). }
  repeat apply conj; try reflexivity.
  - exact H1.
  - intros (fuel & s & Es & _). rewrite H1 in Es. discriminate.
Qed.

(** C7.  For a plain error [e] and any message [m], [Wrap(e, m)] is a new
    classified error whose trace is non-nil: one captured stack over the
    layer [m] over [e].  Whenever [e]'s own [Error()] returns a text [s],
    [Wrap(e, m).Error()] returns [m + ": " + s], which contains [m]. *)
Theorem Wrap_plain_annotates (cs : stack) (h : heap) (e : error) (m : string) :
  plain e ->
  let p := length h in
  let t := withStack (withMessage e m) (frame_Wrap :: cs) in
  let h' := h ++ [mkxError t 0 ""] in
  Wrap cs e m h = Some (xref p, h')
  /\ GetError p h' = Some (t, h')
  /\ is_nil t = false
  /\ snapshots t = (frame_Wrap :: cs) :: snapshots e
  /\ forall fuel s,
       Error fuel h e = Done s ->
       Error (3 + fuel) h' (xref p) = Done (m +:+ ": " +:+ s)
       /\ contains m (m +:+ ": " +:+ s) = true.
Proof.
  intros He p t h'.
  assert (E : h' !! p = Some (mkxError t 0 "")) by apply lookup_new.
  repeat apply conj; try reflexivity.
  - now apply Wrap_plain_cell.
  - apply (GetError_Some _ _ _ E).
  - intros fuel s Es. split; [|apply contains_prefix].
    change (3 + fuel) with (S (S (S fuel))).
    rewrite (Error_xref _ _ _ _ E). cbn [trace is_nil t Error]. unfold h'.
    now rewrite (Error_new h _ _ _ _ Es).
Qed.

Lemma Wrap_plain_annotates_witness :
  plain (fundamental "EOF")
  /\ Error 1 [] (fundamental "EOF") = Done "EOF"
  /\ Error 4 [mkxError (withStack (withMessage (fundamental "EOF") "read")
                          [frame_Wrap; "main"]) 0 ""] (xref 0)
     = Done "read: EOF".
Proof.
  assert (P : plain (fundamental "EOF")) by (split; reflexivity).
  split; [exact P|]. split; [reflexivity|].
  exact (proj1 (proj2 (proj2 (proj2 (proj2
           (Wrap_plain_annotates ["main"] [] (fundamental "EOF") "read" P))))
           1 "EOF" eq_refl)).
Defined.

(** C8.  For a plain error [e], [Wrap(Wrap(e, "inner"), "outer")] is one
    cell: the second call is a self-wrap that puts the layer ["outer"] on
    top of the first trace.  Whenever [e]'s own [Error()] returns a text
    [s], its [Error()] returns ["outer: inner: " + s]: both words occur and
    "outer" comes first, as the outermost layer. *)
Theorem Wrap_Wrap_ordering (cs1 cs2 : stack) (h : heap) (e : error) :
  plain e ->
  let p := length h in
  let t1 := withStack (withMessage e "inner") (frame_Wrap :: cs1) in
  let t2 := withMessage t1 "outer" in
  let h1 := h ++ [mkxError t1 0 ""] in
  let h2 := h ++ [mkxError t2 0 ""] in
  Wrap cs1 e "inner" h = Some (xref p, h1)
  /\ Wrap cs2 (xref p) "outer" h1 = Some (xref p, h2)
  /\ GetError p h2 = Some (t2, h2)
  /\ annotations t2 = "outer" :: "inner" :: annotations e
  /\ forall fuel s,
       Error fuel h e = Done s ->
       let text := "outer: inner: " +:+ s in
       Error (4 + fuel) h2 (xref p) = Done text
       /\ contains "inner" text = true
       /\ contains "outer" text = true
       /\ String.prefix "outer" text = true.
Proof.
  intros He p t1 t2 h1 h2.
  assert (E1 : h1 !! p = Some (mkxError t1 0 "")) by apply lookup_new.
  assert (E2 : h2 !! p = Some (mkxError t2 0 "")) by apply lookup_new.
  repeat apply conj; try reflexivity.
  - now apply Wrap_plain_cell.
  - unfold Wrap. rewrite (xError_Wrap_self _ _ _ _ _ E1).
    unfold h1, h2, p. now rewrite insert_new.
  - apply (GetError_Some _ _ _ E2).
  - intros fuel s Es text. repeat apply conj; try reflexivity.
    change (4 + fuel) with (S (S (S (S fuel)))).
    rewrite (Error_xref _ _ _ _ E2). cbn [trace is_nil t2 t1 Error]. unfold h2.
    now rewrite (Error_new h _ _ _ _ Es).
Qed.

Lemma Wrap_Wrap_ordering_witness :
  plain (fundamental "EOF")
  /\ Error 1 [] (fundamental "EOF") = Done "EOF"
  /\ Error 5 [mkxError (withMessage
                          (withStack (withMessage (fundamental "EOF") "inner")
                             [frame_Wrap; "main"]) "outer") 0 ""] (xref 0)
     = Done "outer: inner: EOF".
Proof.
  assert (P : plain (fundamental "EOF")) by (split; reflexivity).
  split; [exact P|]. split; [reflexivity|].
  exact (proj1 (proj2 (proj2 (proj2 (proj2
           (Wrap_Wrap_ordering ["main"] ["main"] [] (fundamental "EOF") P))))
           1 "EOF" eq_refl)).
Defined.

(** * Further properties of the package *)

(** ** Traces that are chains over a leaf *)

Lemma chain_not_nil (e : error) : chain e = true -> is_nil e = false.
Proof. now destruct e. Qed.

Lemma chain_root (e : error) :
  chain e = true -> root e = fundamental (leaf_text (root e)).
Proof. induction e; cbn; intros C; try discriminate; auto. Qed.

Lemma Error_chain_join (h : heap) (e : error) (fuel : nat) :
  chain e = true -> depth e <= fuel ->
  Error fuel h e = Done (join (annotations e) (leaf_text (root e))).
Proof.
  revert fuel. induction e as [|s0|e0 IH st|c IH msg|p]; intros fuel C Hd;
    try discriminate; destruct fuel as [|n]; cbn in Hd; try lia; cbn [Error].
  - reflexivity.
  - apply IH; [exact C | lia].
  - rewrite IH by (exact C || lia). reflexivity.
Qed.

Lemma Cause_chain_root (h : heap) (e : error) (fuel : nat) :
  chain e = true -> depth e <= fuel -> Cause fuel h e = Done (root e).
Proof.
  revert fuel. induction e as [|s0|e0 IH st|c IH msg|p]; intros fuel C Hd;
    try discriminate; destruct fuel as [|n]; cbn in Hd; try lia; cbn [Cause].
  - reflexivity.
  - apply IH; [exact C | lia].
  - apply IH; [exact C | lia].
Qed.

Lemma depth_pos (e : error) : 1 <= depth e.
Proof. destruct e; cbn; lia. Qed.

(** [xe.Error()] on a classified error whose trace is a chain: the message
    layers, outermost first, each followed by [": "], then the text of the
    leaf.  The captured stacks do not occur in it. *)
Theorem Error_joins_annotations (h : heap) (p : addr) (x : xError) (fuel : nat) :
  h !! p = Some x ->
  chain (trace x) = true ->
  depth (trace x) < fuel ->
  Error fuel h (xref p)
  = Done (join (annotations (trace x)) (leaf_text (root (trace x)))).
Proof.
  intros E C Hd. destruct fuel as [|n]; [lia|].
  rewrite (Error_xref _ _ _ _ E), (chain_not_nil _ C).
  apply Error_chain_join; [exact C | lia].
Qed.

Lemma Error_joins_annotations_witness :
  let t := withMessage (withStack (withMessage (fundamental "EOF") "read")
                          [frame_Wrap; "main"]) "load" in
  [mkxError t 0 ""] !! 0 = Some (mkxError t 0 "")
  /\ chain t = true
  /\ depth t < 5
  /\ Error 5 [mkxError t 0 ""] (xref 0) = Done "load: read: EOF".
Proof.
  intros t. split; [reflexivity|]. split; [reflexivity|].
  assert (Hd : depth t < 5) by (cbn; lia).
  split; [exact Hd|].
  exact (Error_joins_annotations [mkxError t 0 ""] 0 (mkxError t 0 "") 5
           eq_refl eq_refl Hd).
Defined.

Lemma Cause_cell_root (h : heap) (p : addr) (x : xError) (fuel : nat) :
  h !! p = Some x -> chain (trace x) = true -> depth (trace x) < fuel ->
  Cause fuel h (xref p) = Done (root (trace x)).
Proof.
  intros E C Hd.
  destruct fuel as [|n]; [lia|]. cbn [Cause].
  destruct n as [|n]; [pose proof (depth_pos (trace x)); lia|].
  rewrite (xError_Cause_step _ _ _ _ E).
  destruct (trace x) as [|s0|e0 st|c msg|q] eqn:T; try discriminate; cbn [obind].
  - reflexivity.
  - cbn [chain depth] in Hd, C. cbn [root]. apply Cause_chain_root; [exact C | lia].
  - cbn [chain depth] in Hd, C. cbn [root]. apply Cause_chain_root; [exact C | lia].
Qed.

(** [Cause] on a classified error whose trace is a chain returns the leaf
    of the chain, whatever the number of layers. *)
Theorem Cause_finds_root (h : heap) (p : addr) (x : xError) (fuel : nat) :
  h !! p = Some x ->
  chain (trace x) = true ->
  depth (trace x) < fuel ->
  Cause fuel h (xref p) = Done (root (trace x))
  /\ root (trace x) = fundamental (leaf_text (root (trace x))).
Proof.
  intros E C Hd. split; [now apply Cause_cell_root | now apply chain_root].
Qed.

Lemma Cause_finds_root_witness :
  let t := withMessage (withStack (withMessage (fundamental "EOF") "read")
                          [frame_Wrap; "main"]) "load" in
  [mkxError t 0 ""] !! 0 = Some (mkxError t 0 "")
  /\ chain t = true
  /\ depth t < 5
  /\ Cause 5 [mkxError t 0 ""] (xref 0) = Done (fundamental "EOF").
Proof.
  intros t. split; [reflexivity|]. split; [reflexivity|].
  assert (Hd : depth t < 5) by (cbn; lia).
  split; [exact Hd|].
  exact (proj1 (Cause_finds_root [mkxError t 0 ""] 0 (mkxError t 0 "") 5
                  eq_refl eq_refl Hd)).
Defined.

(** A classified error without a trace -- as [Fail] and [Failf] build it --
    has no cause: the method [Cause] returns the nil trace, and the function
    [Cause] therefore returns nil, not the classified error. *)
Theorem Cause_without_trace (h : heap) (p : addr) (x : xError) (fuel : nat) :
  h !! p = Some x ->
  trace x = Nil ->
  xError_Cause (S fuel) h p = Done Nil
  /\ Cause (S (S fuel)) h (xref p) = Done Nil.
Proof.
  intros E T.
  assert (C : xError_Cause (S fuel) h p = Done Nil)
    by (now rewrite (xError_Cause_step _ _ _ _ E), T).
  split; [exact C|]. cbn [Cause]. now rewrite C.
Qed.

Lemma Cause_without_trace_witness :
  Failf Sprintf_dsv 404 "user not find: %s" [string_value "bob"] []
  = Some (xref 0, [mkxError Nil 404 "user not find: bob"])
  /\ [mkxError Nil 404 "user not find: bob"] !! 0
     = Some (mkxError Nil 404 "user not find: bob")
  /\ Cause 2 [mkxError Nil 404 "user not find: bob"] (xref 0) = Done Nil.
Proof.
  split; [reflexivity|]. split; [reflexivity|].
  exact (proj2 (Cause_without_trace [mkxError Nil 404 "user not find: bob"] 0
                  (mkxError Nil 404 "user not find: bob") 0 eq_refl eq_refl)).
Defined.

(** ** Annotating the same classified error again and again *)

Lemma insert_same (h : heap) (p : addr) (x : xError) :
  h !! p = Some x -> <[p := mkxError (trace x) (code x) (message x)]> h = h.
Proof. intros E. apply list_insert_id. now destruct x. Qed.

Lemma layered_step (t : error) (m : string) (msgs : list string) :
  layered t (m :: msgs) = layered (errors.WithMessage t m) msgs.
Proof. reflexivity. Qed.

Lemma layered_chain (t : error) (msgs : list string) :
  chain t = true ->
  chain (layered t msgs) = true
  /\ depth (layered t msgs) = depth t + length msgs
  /\ root (layered t msgs) = root t
  /\ snapshots (layered t msgs) = snapshots t
  /\ annotations (layered t msgs) = rev msgs ++ annotations t.
Proof.
  revert t. induction msgs as [|m msgs IH]; intros t C.
  - cbn. repeat split; (assumption || lia || reflexivity).
  - rewrite layered_step. unfold errors.WithMessage. rewrite (chain_not_nil _ C).
    destruct (IH (withMessage t m) C) as (C' & D' & R' & S' & A').
    repeat split; try assumption.
    + rewrite D'. cbn. lia.
    + rewrite A'. cbn. now rewrite <- app_assoc.
Qed.

Lemma Wraps_layered (cs : stack) (msgs : list string) (h : heap) (p : addr)
    (x : xError) :
  h !! p = Some x ->
  Wraps cs (xref p) msgs h
  = Some (xref p, <[p := mkxError (layered (trace x) msgs) (code x) (message x)]> h).
Proof.
  revert h x. induction msgs as [|m msgs IH]; intros h x E.
  - cbn. now rewrite (insert_same _ _ _ E).
  - cbn [Wraps]. unfold Wrap.
    rewrite (bind_Some _ _ _ _ _ (xError_Wrap_self _ _ _ _ m E)).
    rewrite (IH _ _ (lookup_set _ _ _ _ E)). cbn [trace code message].
    now rewrite insert_set, layered_step.
Qed.

(** However often the package-level [Wrap] is applied to a classified error
    whose trace is a chain, no cell is allocated and no stack is captured;
    the messages pile up on the trace, [Error()] lists them newest first in
    front of the earlier text, and [Cause] still returns the leaf. *)
Theorem Wraps_keep_cause (cs : stack) (msgs : list string) (h : heap) (p : addr)
    (x : xError) (fuel : nat) :
  h !! p = Some x ->
  chain (trace x) = true ->
  depth (trace x) + length msgs < fuel ->
  let t := layered (trace x) msgs in
  let h' := <[p := mkxError t (code x) (message x)]> h in
  Wraps cs (xref p) msgs h = Some (xref p, h')
  /\ length h' = length h
  /\ snapshots t = snapshots (trace x)
  /\ annotations t = rev msgs ++ annotations (trace x)
  /\ Cause fuel h' (xref p) = Done (root (trace x))
  /\ Error fuel h' (xref p)
     = Done (join (rev msgs)
               (join (annotations (trace x)) (leaf_text (root (trace x))))).
Proof.
  intros E C Hd t h'.
  destruct (layered_chain (trace x) msgs C) as (C' & D' & R' & S' & A').
  assert (E' : h' !! p = Some (mkxError t (code x) (message x)))
    by apply (lookup_set _ _ _ _ E).
  assert (Hd' : depth (trace (mkxError t (code x) (message x))) < fuel)
    by (cbn [trace]; unfold t; lia).
  repeat apply conj.
  - now apply Wraps_layered.
  - apply length_insert.
  - exact S'.
  - exact A'.
  - rewrite (Cause_cell_root h' p _ fuel E' C' Hd'). cbn [trace]. unfold t.
    now rewrite R'.
  - destruct fuel as [|n]; [lia|].
    rewrite (Error_xref _ _ _ _ E'). cbn [trace] in Hd' |- *. unfold t in Hd' |- *.
    rewrite (chain_not_nil _ C'), (Error_chain_join _ _ _ C') by lia.
    rewrite A', R'. unfold join. now rewrite fold_right_app.
Qed.

Lemma Wraps_keep_cause_witness :
  let t := withStack (withMessage (fundamental "EOF") "read") [frame_Wrap; "main"] in
  let h := [mkxError t 0 ""] in
  h !! 0 = Some (mkxError t 0 "")
  /\ chain t = true
  /\ depth t + length ["load"; "serve"] < 6
  /\ Cause 6 [mkxError (withMessage (withMessage t "load") "serve") 0 ""] (xref 0)
     = Done (fundamental "EOF")
  /\ Error 6 [mkxError (withMessage (withMessage t "load") "serve") 0 ""] (xref 0)
     = Done "serve: load: read: EOF".
Proof.
  intros t h. split; [reflexivity|]. split; [reflexivity|].
  assert (Hd : depth t + length ["load"; "serve"] < 6) by (cbn; lia).
  split; [exact Hd|].
  pose proof (Wraps_keep_cause ["main"] ["load"; "serve"] h 0 (mkxError t 0 "") 6
                eq_refl eq_refl Hd) as W.
  split; [exact (proj1 (proj2 (proj2 (proj2 (proj2 W)))))
         | exact (proj2 (proj2 (proj2 (proj2 (proj2 W)))))].
Defined.

Lemma xError_Wrapf_self (Sprintf : string -> list value -> string) (cs : stack)
    (h : heap) (xe : addr) (x : xError) (f : string) (args : list value) :
  h !! xe = Some x ->
  xError_Wrapf Sprintf cs xe (xref xe) f args h
  = Some (xref xe,
          <[xe := mkxError (errors.WithMessage (trace x) (Sprintf f args))
                    (code x) (message x)]> h).
Proof.
  intros E. unfold xError_Wrapf, newTrace. rewrite Nat.eqb_refl.
  unfold bind. rewrite (GetError_Some _ _ _ E). cbv beta iota.
  now rewrite (set_trace_Some _ _ _ _ E).
Qed.

(** The package-level [Wrap] and [Wrapf] on a classified error that has no
    trace yet change nothing at all: the primitive returns nil for the nil
    trace, so the annotation is dropped and [Error()] stays empty. *)
Theorem Wrap_without_trace_drops_annotation
    (Sprintf : string -> list value -> string) (cs : stack) (h : heap)
    (p : addr) (x : xError) (m : string) (args : list value) (fuel : nat) :
  h !! p = Some x ->
  trace x = Nil ->
  Wrap cs (xref p) m h = Some (xref p, h)
  /\ Wrapf Sprintf cs (xref p) m args h = Some (xref p, h)
  /\ Error (S fuel) h (xref p) = Done "".
Proof.
  intros E T. repeat apply conj.
  - unfold Wrap. rewrite (xError_Wrap_self _ _ _ _ _ E), T. cbn [errors.WithMessage is_nil].
    rewrite <- T. now rewrite (insert_same _ _ _ E).
  - unfold Wrapf. rewrite (xError_Wrapf_self _ _ _ _ _ _ _ E), T.
    cbn [errors.WithMessage is_nil].
    rewrite <- T. now rewrite (insert_same _ _ _ E).
  - now rewrite (Error_xref _ _ _ _ E), T.
Qed.

Lemma Wrap_without_trace_drops_annotation_witness :
  [mkxError Nil 404 "not found"] !! 0 = Some (mkxError Nil 404 "not found")
  /\ Wrap ["main"] (xref 0) "open config" [mkxError Nil 404 "not found"]
     = Some (xref 0, [mkxError Nil 404 "not found"])
  /\ Error 1 [mkxError Nil 404 "not found"] (xref 0) = Done "".
Proof.
  split; [reflexivity|].
  pose proof (Wrap_without_trace_drops_annotation Sprintf_dsv ["main"]
                [mkxError Nil 404 "not found"] 0 (mkxError Nil 404 "not found")
                "open config" [] 0 eq_refl eq_refl) as W.
  split; [exact (proj1 W) | exact (proj2 (proj2 W))].
Defined.

(** ** The method [WithStack] on another classified error *)

Lemma rawMessage_not_empty (c : Z) (m : string) :
  Nat.eqb (String.length (rawMessage c m)) 0 = false.
Proof. reflexivity. Qed.

(** [xe.WithStack(re)] with [re] another classified error: [xe]'s trace
    becomes a captured stack over [re] under the debug text
    ["<Error code>: message"] of [re]; [re] itself is left as it was.  When
    [re.Error()] then returns [s], [xe.Error()] returns the debug text,
    [": "] and [s]. *)
Theorem WithStack_folds_classification (cs : stack) (h : heap) (xe re : addr)
    (x r : xError) :
  h !! xe = Some x ->
  h !! re = Some r ->
  re <> xe ->
  let t := withMessage (withStack (xref re) (frame_xWithStack :: cs))
             (rawMessage (code r) (message r)) in
  let h' := <[xe := mkxError t (code x) (message x)]> h in
  xError_WithStack cs xe (xref re) h = Some (xref xe, h')
  /\ h' !! re = Some r
  /\ contains "<Error " (rawMessage (code r) (message r)) = true
  /\ forall fuel s,
       Error fuel h' (xref re) = Done s ->
       Error (3 + fuel) h' (xref xe)
       = Done (rawMessage (code r) (message r) +:+ ": " +:+ s).
Proof.
  intros Ex Er Hne t h'.
  assert (Ex' : h' !! xe = Some (mkxError t (code x) (message x)))
    by apply (lookup_set _ _ _ _ Ex).
  repeat apply conj.
  - unfold xError_WithStack.
    rewrite (bind_Some _ _ _ _ _ (set_trace_Some _ _ _ _ Ex)).
    apply Nat.eqb_neq in Hne as Hne'. rewrite Hne'.
    set (h1 := <[xe := _]> h).
    assert (Er1 : h1 !! re = Some r)
      by (unfold h1; rewrite list_lookup_insert_ne by congruence; exact Er).
    assert (Ex1 : h1 !! xe = Some (mkxError (errors.WithStack (frame_xWithStack :: cs) (xref re))
                                     (code x) (message x)))
      by apply (lookup_set _ _ _ _ Ex).
    rewrite (bind_Some _ _ _ _ _ (Code_Some _ _ _ Er1)).
    rewrite (bind_Some _ _ _ _ _ (Message_Some _ _ _ Er1)).
    rewrite rawMessage_not_empty.
    unfold bind at 1 2. rewrite (GetError_Some _ _ _ Ex1). cbv beta iota.
    rewrite (set_trace_Some _ _ _ _ Ex1). cbn [trace code message].
    unfold h1, h', t. now rewrite insert_set.
  - unfold h'. rewrite list_lookup_insert_ne by congruence. exact Er.
  - unfold rawMessage. apply contains_prefix.
  - intros fuel s Es. change (3 + fuel) with (S (S (S fuel))).
    rewrite (Error_xref _ _ _ _ Ex'). cbn [trace is_nil t Error]. now rewrite Es.
Qed.

Lemma WithStack_folds_classification_witness :
  let h := [mkxError Nil 404 "not found"; mkxError Nil 500 "internal"] in
  let t := withMessage (withStack (xref 0) [frame_xWithStack; "main"])
             "<Error 404>: not found" in
  let h' := [mkxError Nil 404 "not found"; mkxError t 500 "internal"] in
  h !! 1 = Some (mkxError Nil 500 "internal")
  /\ h !! 0 = Some (mkxError Nil 404 "not found")
  /\ 0 <> 1
  /\ xError_WithStack ["main"] 1 (xref 0) h = Some (xref 1, h')
  /\ Error 1 h' (xref 0) = Done ""
  /\ Error 4 h' (xref 1) = Done "<Error 404>: not found: ".
Proof.
  intros h t h'. split; [reflexivity|]. split; [reflexivity|].
  assert (Hne : 0 <> 1) by lia. split; [exact Hne|].
  pose proof (WithStack_folds_classification ["main"] h 1 0
                (mkxError Nil 500 "internal") (mkxError Nil 404 "not found")
                eq_refl eq_refl Hne) as W.
  split; [exact (proj1 W)|]. split; [reflexivity|].
  exact (proj2 (proj2 (proj2 W)) 1 "" eq_refl).
Defined.

(** ** The methods on a plain error *)

(** The methods [Wrap], [Wrapf] and [WithStack] called with a plain error
    overwrite the receiver's trace with the primitive's wrap of that error:
    whatever trace the receiver had is gone.  For a chain [e], [Error()]
    after [xe.Wrap(e, m)] is [m], [": "] and the rendering of [e] alone. *)
Theorem methods_replace_trace (Sprintf : string -> list value -> string)
    (cs : stack) (h : heap) (xe : addr) (x : xError) (e : error) (m : string)
    (args : list value) :
  h !! xe = Some x ->
  plain e ->
  let cell t := <[xe := mkxError t (code x) (message x)]> h in
  xError_Wrap cs xe e m h
    = Some (xref xe, cell (withStack (withMessage e m) (frame_xWrap :: cs)))
  /\ xError_Wrapf Sprintf cs xe e m args h
    = Some (xref xe,
            cell (withStack (withMessage e (Sprintf m args)) (frame_xWrapf :: cs)))
  /\ xError_WithStack cs xe e h
    = Some (xref xe, cell (withStack e (frame_xWithStack :: cs)))
  /\ forall fuel,
       chain e = true -> depth e + 2 < fuel ->
       Error fuel (cell (withStack (withMessage e m) (frame_xWrap :: cs))) (xref xe)
       = Done (m +:+ ": " +:+ join (annotations e) (leaf_text (root e))).
Proof.
  intros E [Hn Hx] cell. repeat apply conj.
  - unfold xError_Wrap, errors.Wrap.
    destruct e; try discriminate;
      now rewrite (bind_Some _ _ _ _ _ (set_trace_Some _ _ _ _ E)).
  - unfold xError_Wrapf, errors.Wrap.
    destruct e; try discriminate;
      now rewrite (bind_Some _ _ _ _ _ (set_trace_Some _ _ _ _ E)).
  - unfold xError_WithStack, errors.WithStack.
    destruct e; try discriminate;
      now rewrite (bind_Some _ _ _ _ _ (set_trace_Some _ _ _ _ E)).
  - intros fuel C Hd.
    destruct fuel as [|[|[|n]]]; try lia. unfold cell.
    rewrite (Error_xref _ _ _ _ (lookup_set _ _ _ _ E)). cbn [trace is_nil Error].
    rewrite (Error_chain_join _ _ _ C) by lia. reflexivity.
Qed.

Lemma methods_replace_trace_witness :
  let old := withStack (withMessage (fundamental "timeout") "dial") ["main"] in
  [mkxError old 503 "unavailable"] !! 0 = Some (mkxError old 503 "unavailable")
  /\ plain (fundamental "EOF")
  /\ xError_Wrap ["main"] 0 (fundamental "EOF") "read" [mkxError old 503 "unavailable"]
     = Some (xref 0,
             [mkxError (withStack (withMessage (fundamental "EOF") "read")
                          [frame_xWrap; "main"]) 503 "unavailable"])
  /\ Error 4 [mkxError (withStack (withMessage (fundamental "EOF") "read")
                          [frame_xWrap; "main"]) 503 "unavailable"] (xref 0)
     = Done "read: EOF".
Proof.
  intros old. split; [reflexivity|].
  assert (P : plain (fundamental "EOF")) by (split; reflexivity).
  split; [exact P|].
  pose proof (methods_replace_trace Sprintf_dsv ["main"]
                [mkxError old 503 "unavailable"] 0 (mkxError old 503 "unavailable")
                (fundamental "EOF") "read" [] eq_refl P) as W.
  split; [exact (proj1 W)|].
  assert (Hd : depth (fundamental "EOF") + 2 < 4) by (cbn; lia).
  exact (proj2 (proj2 (proj2 W)) 4 eq_refl Hd).
Defined.

(** The method [Cause] removes one layer only.  After [WithStack(e)] on a
    plain [e] it returns [e] itself; after [Wrap(e, m)] it returns the
    message layer over [e], not [e]. *)
Theorem xError_Cause_one_layer (cs : stack) (h : heap) (e : error) (m : string)
    (fuel : nat) :
  plain e ->
  let p := length h in
  let h1 := h ++ [mkxError (withStack e (frame_WithStack :: cs)) 0 ""] in
  let h2 := h ++ [mkxError (withStack (withMessage e m) (frame_Wrap :: cs)) 0 ""] in
  WithStack cs e h = Some (xref p, h1)
  /\ xError_Cause (S fuel) h1 p = Done e
  /\ Wrap cs e m h = Some (xref p, h2)
  /\ xError_Cause (S fuel) h2 p = Done (withMessage e m).
Proof.
  intros He p h1 h2.
  pose proof (lookup_new h (mkxError (withStack e (frame_WithStack :: cs)) 0 "")) as E1.
  pose proof (lookup_new h (mkxError (withStack (withMessage e m) (frame_Wrap :: cs)) 0 "")) as E2.
  repeat apply conj.
  - destruct He as [Hn Hx]. destruct e; try discriminate; reflexivity.
  - now rewrite (xError_Cause_step _ _ _ _ E1).
  - now apply Wrap_plain_cell.
  - now rewrite (xError_Cause_step _ _ _ _ E2).
Qed.

Lemma xError_Cause_one_layer_witness :
  plain (fundamental "EOF")
  /\ xError_Cause 1 [mkxError (withStack (fundamental "EOF") [frame_WithStack; "main"]) 0 ""] 0
     = Done (fundamental "EOF")
  /\ xError_Cause 1 [mkxError (withStack (withMessage (fundamental "EOF") "read")
                                 [frame_Wrap; "main"]) 0 ""] 0
     = Done (withMessage (fundamental "EOF") "read").
Proof.
  assert (P : plain (fundamental "EOF")) by (split; reflexivity).
  split; [exact P|].
  pose proof (xError_Cause_one_layer ["main"] [] (fundamental "EOF") "read" 0 P) as W.
  split; [exact (proj1 (proj2 W)) | exact (proj2 (proj2 (proj2 W)))].
Defined.

(** [Wrapf(e, format, args...)] on a plain error [e] whose [Error()]
    returns [s] allocates a classified error with code 0 and an empty
    message, whose [Error()] returns the formatted message, [": "] and [s]. *)
Theorem Wrapf_plain_annotates (Sprintf : string -> list value -> string)
    (cs : stack) (h : heap) (e : error) (format s : string) (args : list value)
    (fuel : nat) :
  plain e ->
  Error fuel h e = Done s ->
  let p := length h in
  let t := withStack (withMessage e (Sprintf format args)) (frame_Wrapf :: cs) in
  let h' := h ++ [mkxError t 0 ""] in
  Wrapf Sprintf cs e format args h = Some (xref p, h')
  /\ Code p h' = Some (0%Z, h')
  /\ Message p h' = Some ("", h')
  /\ Error (3 + fuel) h' (xref p) = Done (Sprintf format args +:+ ": " +:+ s)
  /\ contains (Sprintf format args) (Sprintf format args +:+ ": " +:+ s) = true.
Proof.
  intros [Hn Hx] Es p t h'.
  assert (E : h' !! p = Some (mkxError t 0 "")) by apply lookup_new.
  repeat apply conj.
  - destruct e; try discriminate; reflexivity.
  - apply (Code_Some _ _ _ E).
  - apply (Message_Some _ _ _ E).
  - change (3 + fuel) with (S (S (S fuel))).
    rewrite (Error_xref _ _ _ _ E). cbn [trace is_nil t Error]. unfold h'.
    now rewrite (Error_new h _ _ _ _ Es).
  - apply contains_prefix.
Qed.

Lemma Wrapf_plain_annotates_witness :
  plain (fundamental "EOF")
  /\ Error 1 [] (fundamental "EOF") = Done "EOF"
  /\ Error 4 [mkxError (withStack (withMessage (fundamental "EOF") "read block 7")
                          [frame_Wrapf; "main"]) 0 ""] (xref 0)
     = Done "read block 7: EOF".
Proof.
  assert (P : plain (fundamental "EOF")) by (split; reflexivity).
  split; [exact P|]. split; [reflexivity|].
  exact (proj1 (proj2 (proj2 (proj2
           (Wrapf_plain_annotates Sprintf_dsv ["main"] [] (fundamental "EOF")
              "read block %d" "EOF" [int_value 7] 1 P eq_refl))))).
Defined.

(** ** The methods [Wrap] and [Wrapf] on another classified error *)

Lemma xError_Wrapf_other (Sprintf : string -> list value -> string) (cs : stack)
    (h : heap) (xe re : addr) (x r : xError) (f : string) (args : list value) :
  h !! xe = Some x -> h !! re = Some r -> re <> xe -> is_XError (trace r) = false ->
  xError_Wrapf Sprintf cs xe (xref re) f args h
  = Some (xref xe,
          <[xe := mkxError (withMessage (xref xe) (Sprintf f args)) (code x) (message x)]> h).
Proof.
  intros Ex Er Hne Ht. apply Nat.eqb_neq in Hne.
  unfold xError_Wrapf, newTrace. rewrite Hne.
  unfold bind at 1 2 3. rewrite (GetError_Some _ _ _ Er). cbv beta iota.
  assert (W : xError_WithStack (frame_xWrapf :: cs) xe (trace r) h
              = Some (xref xe,
                      <[xe := mkxError (errors.WithStack (frame_xWithStack :: frame_xWrapf :: cs) (trace r))
                                (code x) (message x)]> h)).
  { unfold xError_WithStack. rewrite (bind_Some _ _ _ _ _ (set_trace_Some _ _ _ _ Ex)).
    destruct (trace r); try reflexivity. discriminate. }
  rewrite W.
  rewrite (set_trace_Some _ _ _ _ (lookup_set _ _ _ _ Ex)). cbn [code message].
  now rewrite insert_set.
Qed.

(** For any two distinct classified errors, [xe.Wrap(re, m)] and
    [xe.Wrapf(re, f, args...)] leave in [xe] a trace that is one message
    layer over [xe] itself -- nothing of [re], and nothing of the trace [xe]
    had.  On that heap [Error()], the [%+v] rendering and [Cause] of [xe]
    have no result for any fuel. *)
Theorem Wrap_other_classified_cycles (Sprintf : string -> list value -> string)
    (cs : stack) (h : heap) (xe re : addr) (x r : xError) (m : string)
    (args : list value) (fuel : nat) :
  h !! xe = Some x ->
  h !! re = Some r ->
  re <> xe ->
  is_XError (trace r) = false ->
  let cell msg := <[xe := mkxError (withMessage (xref xe) msg) (code x) (message x)]> h in
  xError_Wrap cs xe (xref re) m h = Some (xref xe, cell m)
  /\ xError_Wrapf Sprintf cs xe (xref re) m args h = Some (xref xe, cell (Sprintf m args))
  /\ forall msg,
       Error fuel (cell msg) (xref xe) = OutOfFuel
       /\ Format_plus_v fuel (cell msg) (xref xe) = OutOfFuel
       /\ Cause fuel (cell msg) (xref xe) = OutOfFuel.
Proof.
  intros Ex Er Hne Ht cell. repeat apply conj.
  - now apply (xError_Wrap_other _ _ _ _ _ r).
  - now apply (xError_Wrapf_other _ _ _ _ _ _ r).
  - intros msg.
    assert (E : cell msg !! xe = Some (mkxError (withMessage (xref xe) msg) (code x) (message x)))
      by apply (lookup_set _ _ _ _ Ex).
    assert (L : self_layer xe (trace (mkxError (withMessage (xref xe) msg) (code x) (message x))))
      by (right; eauto).
    repeat apply conj.
    + apply (Error_self_layer _ _ _ E L).
    + apply (Format_plus_v_self_layer _ _ _ E L).
    + apply (Cause_self_layer _ _ _ E L).
Qed.

Lemma Wrap_other_classified_cycles_witness :
  let old := withStack (withMessage (fundamental "EOF") "read") [frame_Wrap; "main"] in
  let h := [mkxError old 0 ""; mkxError Nil 404 "not found"] in
  h !! 1 = Some (mkxError Nil 404 "not found")
  /\ h !! 0 = Some (mkxError old 0 "")
  /\ 0 <> 1
  /\ is_XError old = false
  /\ xError_Wrap ["main"] 1 (xref 0) "lookup" h
     = Some (xref 1, [mkxError old 0 ""; mkxError (withMessage (xref 1) "lookup") 404 "not found"])
  /\ Error 100 [mkxError old 0 ""; mkxError (withMessage (xref 1) "lookup") 404 "not found"]
       (xref 1) = OutOfFuel.
Proof.
  intros old h. split; [reflexivity|]. split; [reflexivity|].
  assert (Hne : 0 <> 1) by lia. split; [exact Hne|]. split; [reflexivity|].
  pose proof (Wrap_other_classified_cycles Sprintf_dsv ["main"] h 1 0
                (mkxError Nil 404 "not found") (mkxError old 0 "") "lookup" [] 100
                eq_refl eq_refl Hne eq_refl) as W.
  split; [exact (proj1 W) | exact (proj1 (proj2 (proj2 W) "lookup"))].
Defined.

(** ** Rendering by verb *)

Lemma Format_plus_v_extend (h h' : heap) :
  (forall p x, h !! p = Some x -> h' !! p = Some x) ->
  forall fuel e s, Format_plus_v fuel h e = Done s -> Format_plus_v fuel h' e = Done s.
Proof.
  intros Hext fuel. induction fuel as [|n IH]; intros e s E; [discriminate|].
  destruct e as [|s0|e0 st|c msg|p]; cbn [Format_plus_v] in E |- *; try exact E.
  - destruct (Format_plus_v n h e0) as [s1| |] eqn:Ec; try discriminate.
    now rewrite (IH _ _ Ec).
  - destruct (Format_plus_v n h c) as [s1| |] eqn:Ec; try discriminate.
    now rewrite (IH _ _ Ec).
  - destruct (h !! p) as [x|] eqn:Ep; [|discriminate].
    rewrite (Hext _ _ Ep).
    destruct (Format_plus_v n h (trace x)) as [s1| |] eqn:Ec; try discriminate.
    now rewrite (IH _ _ Ec).
Qed.

(** [Format] on [Wrap(e, m)] for a plain [e] that renders as [s] in plain
    mode and as [v] in extended mode.  [%s], and [%v] without the flag,
    write [m: s], with no frame of the captured stack; [%q] writes that text
    quoted; [%+v] writes [v], the message, every frame of the stack captured
    by [Wrap] and a final newline; any other verb writes nothing. *)
Theorem Format_by_verb (Quote : string -> string) (cs : stack) (h : heap)
    (e : error) (m s v : string) (fuel : nat) (verb : ascii) (plus : bool) :
  plain e ->
  Error fuel h e = Done s ->
  Format_plus_v fuel h e = Done v ->
  let p := length h in
  let h' := h ++ [mkxError (withStack (withMessage e m) (frame_Wrap :: cs)) 0 ""] in
  let n := 3 + fuel in
  Wrap cs e m h = Some (xref p, h')
  /\ xError_Format Quote n h' p "s" plus = Done (m +:+ ": " +:+ s)
  /\ xError_Format Quote n h' p "v" false = Done (m +:+ ": " +:+ s)
  /\ xError_Format Quote n h' p "q" plus = Done (Quote (m +:+ ": " +:+ s))
  /\ xError_Format Quote n h' p "v" true
     = Done (((v +:+ String "010" m) +:+ errors.stack_Format (frame_Wrap :: cs))
             +:+ String "010" "")
  /\ (Ascii.eqb verb "v" = false -> Ascii.eqb verb "s" = false ->
      Ascii.eqb verb "q" = false ->
      xError_Format Quote n h' p verb plus = Done "").
Proof.
  intros He Es Ev p h' n.
  assert (E : h' !! p = Some (mkxError (withStack (withMessage e m) (frame_Wrap :: cs)) 0 ""))
    by apply lookup_new.
  assert (R : Error n h' (xref p) = Done (m +:+ ": " +:+ s)).
  { unfold n. change (3 + fuel) with (S (S (S fuel))).
    rewrite (Error_xref _ _ _ _ E). cbn [trace is_nil Error]. unfold h'.
    now rewrite (Error_new h _ _ _ _ Es). }
  repeat apply conj.
  - now apply Wrap_plain_cell.
  - unfold xError_Format. cbn [Ascii.eqb Bool.eqb]. exact R.
  - unfold xError_Format. cbn [Ascii.eqb Bool.eqb]. exact R.
  - unfold xError_Format. cbn [Ascii.eqb Bool.eqb]. now rewrite R.
  - unfold xError_Format. cbn [Ascii.eqb Bool.eqb].
    unfold n. change (3 + fuel) with (S (S (S fuel))).
    rewrite (Format_plus_v_xref _ _ _ _ E). cbn [trace Format_plus_v].
    assert (Ev' : Format_plus_v fuel h' e = Done v).
    { apply (Format_plus_v_extend h); [|exact Ev]. intros q y. apply lookup_app_l_Some. }
    now rewrite Ev'.
  - intros Hv Hs Hq. unfold xError_Format. now rewrite Hv, Hs, Hq.
Qed.

Lemma Format_by_verb_witness :
  plain (fundamental "EOF")
  /\ Error 1 [] (fundamental "EOF") = Done "EOF"
  /\ Format_plus_v 1 [] (fundamental "EOF") = Done "EOF"
  /\ xError_Format (fun s => s) 4
       [mkxError (withStack (withMessage (fundamental "EOF") "read") [frame_Wrap; "main"]) 0 ""]
       0 "s" false
     = Done "read: EOF"
  /\ xError_Format (fun s => s) 4
       [mkxError (withStack (withMessage (fundamental "EOF") "read") [frame_Wrap; "main"]) 0 ""]
       0 "d" false
     = Done "".
Proof.
  assert (P : plain (fundamental "EOF")) by (split; reflexivity).
  split; [exact P|]. split; [reflexivity|]. split; [reflexivity|].
  pose proof (Format_by_verb (fun s => s) ["main"] [] (fundamental "EOF") "read"
                "EOF" "EOF" 1 "d" false P eq_refl eq_refl) as W.
  split; [exact (proj1 (proj2 W))|].
  exact (proj2 (proj2 (proj2 (proj2 (proj2 W)))) eq_refl eq_refl eq_refl).
Defined.

(** [Format] on a classified error without a trace, as [Fail] and [Failf]
    build it: [%+v] writes ["<nil>"] and a newline, while [%v] and [%s]
    write nothing and [%q] writes the quoted empty string. *)
Theorem Format_without_trace (Quote : string -> string) (h : heap) (p : addr)
    (x : xError) (fuel : nat) (plus : bool) :
  h !! p = Some x ->
  trace x = Nil ->
  xError_Format Quote (S (S fuel)) h p "v" true = Done ("<nil>" +:+ String "010" "")
  /\ xError_Format Quote (S (S fuel)) h p "v" false = Done ""
  /\ xError_Format Quote (S (S fuel)) h p "s" plus = Done ""
  /\ xError_Format Quote (S (S fuel)) h p "q" plus = Done (Quote "").
Proof.
  intros E T.
  assert (R : Error (S (S fuel)) h (xref p) = Done "")
    by (now rewrite (Error_xref _ _ _ _ E), T).
  unfold xError_Format. cbn [Ascii.eqb Bool.eqb]. repeat apply conj.
  - rewrite (Format_plus_v_xref _ _ _ _ E), T. reflexivity.
  - exact R.
  - exact R.
  - now rewrite R.
Qed.

Lemma Format_without_trace_witness :
  [mkxError Nil 404 "not found"] !! 0 = Some (mkxError Nil 404 "not found")
  /\ xError_Format (fun s => s) 2 [mkxError Nil 404 "not found"] 0 "v" true
     = Done ("<nil>" +:+ String "010" "")
  /\ xError_Format (fun s => s) 2 [mkxError Nil 404 "not found"] 0 "v" false = Done "".
Proof.
  split; [reflexivity|].
  pose proof (Format_without_trace (fun s => s) [mkxError Nil 404 "not found"] 0
                (mkxError Nil 404 "not found") 0 false eq_refl eq_refl) as W.
  split; [exact (proj1 W) | exact (proj1 (proj2 W))].
Defined.

(** ** What a call changes *)

Lemma in_place_ret {A} xe (a : A) (Q : A -> Prop) : Q a -> in_place xe (ret a) Q.
Proof. intros HQ h a' h' [= <- <-]. auto. Qed.

Lemma in_place_bind {A B} xe (m : M A) (k : A -> M B) (R : A -> Prop) (Q : B -> Prop) :
  in_place xe m R -> (forall a, R a -> in_place xe (k a) Q) -> in_place xe (bind m k) Q.
Proof.
  intros Hm Hk h b h' E. unfold bind in E.
  destruct (m h) as [[a h1]|] eqn:E1; [|discriminate].
  destruct (Hm _ _ _ E1) as (HR & L1 & F1).
  destruct (Hk a HR _ _ _ E) as (HQ & L2 & F2).
  split; [exact HQ|]. split; [congruence|].
  intros p Hp. now rewrite F2, F1.
Qed.

Lemma in_place_load xe q : in_place xe (load q) (fun _ => True).
Proof.
  intros h a h' E. unfold load in E.
  destruct (h !! q); [|discriminate]. injection E as _ <-. auto.
Qed.

Lemma in_place_set_trace xe t : in_place xe (set_trace xe t) (fun _ => True).
Proof.
  intros h a h' E. unfold set_trace in E.
  destruct (h !! xe) as [x|]; [|discriminate]. injection E as _ <-.
  split; [exact I|]. split; [apply length_insert|].
  intros p Hp. now apply list_lookup_insert_ne.
Qed.

Lemma in_place_accessors xe q :
  in_place xe (Code q) (fun _ => True)
  /\ in_place xe (Message q) (fun _ => True)
  /\ in_place xe (GetError q) (fun _ => True).
Proof.
  unfold Code, Message, GetError.
  split; [|split]; (eapply in_place_bind; [apply in_place_load|]);
    intros; now apply in_place_ret.
Qed.

Lemma in_place_xError_WithStack cs xe err :
  in_place xe (xError_WithStack cs xe err) (fun r => r = xref xe).
Proof.
  unfold xError_WithStack.
  eapply in_place_bind; [apply in_place_set_trace|]. intros _ _.
  destruct err as [| | | |re]; try (now apply in_place_ret).
  destruct (Nat.eqb_spec re xe) as [->|Hne]; [now apply in_place_ret|].
  eapply in_place_bind; [apply in_place_accessors|]. intros c _.
  eapply in_place_bind; [apply in_place_accessors|]. intros m _.
  eapply in_place_bind with (R := fun _ => True); [|intros; now apply in_place_ret].
  destruct (Nat.eqb _ 0); [now apply in_place_ret|].
  eapply in_place_bind; [apply in_place_accessors|]. intros t _.
  apply in_place_set_trace.
Qed.

Lemma in_place_newTrace cs xe re : in_place xe (newTrace cs xe re) (fun _ => True).
Proof.
  unfold newTrace. destruct (Nat.eqb re xe); [apply in_place_accessors|].
  eapply in_place_bind; [apply in_place_accessors|]. intros t _.
  intros h a h' E. destruct (in_place_xError_WithStack cs xe t h a h' E) as (_ & L & F).
  auto.
Qed.

Lemma in_place_xError_Wrap cs xe err s :
  in_place xe (xError_Wrap cs xe err s) (fun r => r = xref xe).
Proof.
  unfold xError_Wrap.
  eapply in_place_bind with (R := fun _ => True); [|intros; now apply in_place_ret].
  destruct err as [| | | |re]; try apply in_place_set_trace.
  eapply in_place_bind; [apply in_place_newTrace|]. intros nt _.
  apply in_place_set_trace.
Qed.

Lemma in_place_xError_Wrapf Sprintf cs xe err s args :
  in_place xe (xError_Wrapf Sprintf cs xe err s args) (fun r => r = xref xe).
Proof.
  unfold xError_Wrapf.
  eapply in_place_bind with (R := fun _ => True); [|intros; now apply in_place_ret].
  destruct err as [| | | |re]; try apply in_place_set_trace.
  eapply in_place_bind; [apply in_place_newTrace|]. intros nt _.
  apply in_place_set_trace.
Qed.

(** A method call -- [Wrap], [Wrapf] or [WithStack], with any argument --
    that returns, returns its receiver, allocates nothing, and leaves every
    cell other than the receiver's exactly as it was: the classified error
    passed as argument is read, never written. *)
Theorem method_in_place (Sprintf : string -> list value -> string) (o : op)
    (xe : addr) (h h' : heap) (r : error) :
  receiver o = Some xe ->
  call Sprintf o h = Some (r, h') ->
  r = xref xe
  /\ length h' = length h
  /\ forall p, p <> xe -> h' !! p = h !! p.
Proof.
  intros Hr E. destruct o; try discriminate; injection Hr as ->; cbn [call] in E.
  - exact (in_place_xError_Wrap _ _ _ _ _ _ _ E).
  - exact (in_place_xError_Wrapf _ _ _ _ _ _ _ _ _ E).
  - exact (in_place_xError_WithStack _ _ _ _ _ _ E).
Qed.

Lemma method_in_place_witness :
  let h := [mkxError Nil 404 "not found"; mkxError Nil 500 "internal"] in
  let h' := [mkxError Nil 404 "not found";
             mkxError (withMessage (withStack (xref 0) [frame_xWithStack; "main"])
                         "<Error 404>: not found") 500 "internal"] in
  receiver (call_xWithStack ["main"] 1 (xref 0)) = Some 1
  /\ call Sprintf_dsv (call_xWithStack ["main"] 1 (xref 0)) h = Some (xref 1, h')
  /\ (0 <> 1 -> h' !! 0 = h !! 0).
Proof.
  intros h h'. split; [reflexivity|].
  assert (E : call Sprintf_dsv (call_xWithStack ["main"] 1 (xref 0)) h = Some (xref 1, h'))
    by reflexivity.
  split; [exact E|].
  exact (proj2 (proj2 (method_in_place Sprintf_dsv (call_xWithStack ["main"] 1 (xref 0))
                         1 h h' (xref 1) eq_refl E)) 0).
Defined.

(** A package-level call -- [Wrap], [Wrapf] or [WithStack] -- that returns:
    on nil it returns nil and changes nothing; on a classified error it
    returns that same error, allocates nothing and leaves every other cell
    as it was; on a plain error it returns a new classified error, the one
    cell it appends, with code 0, an empty message and a non-nil trace. *)
Theorem package_call_effects (Sprintf : string -> list value -> string) (o : op)
    (h h' : heap) (r : error) :
  receiver o = None ->
  call Sprintf o h = Some (r, h') ->
  match argument o with
  | Nil => r = Nil /\ h' = h
  | xref re =>
      r = xref re /\ length h' = length h /\ forall p, p <> re -> h' !! p = h !! p
  | _ =>
      r = xref (length h)
      /\ exists t, h' = h ++ [mkxError t 0 ""] /\ is_nil t = false
  end.
Proof.
  intros Hr E.
  destruct o as [| | |cs err s|cs err s args|cs err]; try discriminate;
    cbn [call argument] in E |- *.
  - unfold Wrap in E. destruct err as [| | | |re].
    + now injection E as <- <-.
    + injection E as <- <-. split; [reflexivity|]. eexists. split; reflexivity.
    + injection E as <- <-. split; [reflexivity|]. eexists. split; reflexivity.
    + injection E as <- <-. split; [reflexivity|]. eexists. split; reflexivity.
    + exact (in_place_xError_Wrap _ _ _ _ _ _ _ E).
  - unfold Wrapf in E. destruct err as [| | | |re].
    + now injection E as <- <-.
    + injection E as <- <-. split; [reflexivity|]. eexists. split; reflexivity.
    + injection E as <- <-. split; [reflexivity|]. eexists. split; reflexivity.
    + injection E as <- <-. split; [reflexivity|]. eexists. split; reflexivity.
    + exact (in_place_xError_Wrapf _ _ _ _ _ _ _ _ _ E).
  - unfold WithStack in E. destruct err as [| | | |re].
    + now injection E as <- <-.
    + injection E as <- <-. split; [reflexivity|]. eexists. split; reflexivity.
    + injection E as <- <-. split; [reflexivity|]. eexists. split; reflexivity.
    + injection E as <- <-. split; [reflexivity|]. eexists. split; reflexivity.
    + exact (in_place_xError_WithStack _ _ _ _ _ _ E).
Qed.

Lemma package_call_effects_witness :
  let h := [mkxError Nil 404 "not found"] in
  let o := call_Wrapf ["main"] (fundamental "EOF") "read block %d" [int_value 7] in
  let t := withStack (withMessage (fundamental "EOF") "read block 7") [frame_Wrapf; "main"] in
  receiver o = None
  /\ call Sprintf_dsv o h = Some (xref 1, h ++ [mkxError t 0 ""])
  /\ xref 1 = xref (length h).
Proof.
  intros h o t. split; [reflexivity|].
  assert (E : call Sprintf_dsv o h = Some (xref 1, h ++ [mkxError t 0 ""])) by reflexivity.
  split; [exact E|].
  exact (proj1 (package_call_effects Sprintf_dsv o h (h ++ [mkxError t 0 ""]) (xref 1)
                  eq_refl E)).
Defined.

Lemma calls_return_witness :
  let h := [mkxError Nil 404 "not found"; mkxError Nil 500 "internal"] in
  let os := [call_xWrap ["main"] 0 (fundamental "EOF") "read";
             call_xWithStack ["main"] 1 (xref 0);
             call_Wrapf ["main"] (xref 1) "retry %d" [int_value 3];
             call_WithStack ["main"] (fundamental "EOF")] in
  Forall (op_ok 2) os
  /\ wf_heap 2 h
  /\ exists h', calls Sprintf_dsv os h = Some (tt, h') /\ wf_heap 2 h'.
Proof.
  intros h os.
  assert (Hos : Forall (op_ok 2) os).
  { unfold os. repeat constructor; cbn; lia. }
  assert (Hwf : wf_heap 2 h).
  { split; [cbn; lia|]. intros [|[|p]] x E; cbn in E; try discriminate;
      injection E as <-; reflexivity. }
  split; [exact Hos|]. split; [exact Hwf|].
  exact (calls_return Sprintf_dsv 2 os h Hos Hwf).
Defined.

(** The package-level [WithStack] on any classified error replaces its
    trace, whatever it was, by a captured stack over the classified error
    itself; afterwards [Error()], the [%+v] rendering and [Cause] of that
    error have no result for any fuel. *)
Theorem WithStack_classified_cycles (cs : stack) (h : heap) (p : addr)
    (x : xError) (fuel : nat) :
  h !! p = Some x ->
  let t := withStack (xref p) (frame_xWithStack :: frame_WithStack :: cs) in
  let h' := <[p := mkxError t (code x) (message x)]> h in
  WithStack cs (xref p) h = Some (xref p, h')
  /\ Error fuel h' (xref p) = OutOfFuel
  /\ Format_plus_v fuel h' (xref p) = OutOfFuel
  /\ Cause fuel h' (xref p) = OutOfFuel.
Proof.
  intros E t h'.
  assert (E' : h' !! p = Some (mkxError t (code x) (message x)))
    by apply (lookup_set _ _ _ _ E).
  assert (L : self_layer p (trace (mkxError t (code x) (message x))))
    by (left; eauto).
  repeat apply conj.
  - apply (xError_WithStack_self _ _ _ _ E).
  - apply (Error_self_layer _ _ _ E' L).
  - apply (Format_plus_v_self_layer _ _ _ E' L).
  - apply (Cause_self_layer _ _ _ E' L).
Qed.

Lemma WithStack_classified_cycles_witness :
  let old := withStack (withMessage (fundamental "EOF") "read") [frame_Wrap; "main"] in
  [mkxError old 0 ""] !! 0 = Some (mkxError old 0 "")
  /\ WithStack ["main"] (xref 0) [mkxError old 0 ""]
     = Some (xref 0, [mkxError (withStack (xref 0) [frame_xWithStack; frame_WithStack; "main"]) 0 ""])
  /\ Cause 100 [mkxError (withStack (xref 0) [frame_xWithStack; frame_WithStack; "main"]) 0 ""]
       (xref 0) = OutOfFuel.
Proof.
  intros old. split; [reflexivity|].
  pose proof (WithStack_classified_cycles ["main"] [mkxError old 0 ""] 0
                (mkxError old 0 "") 100 eq_refl) as W.
  split; [exact (proj1 W) | exact (proj2 (proj2 (proj2 W)))].
Defined.
